(** * The AppSync JSON metadata visitor

    A shallow embedding of
    [packages/amplify-codegen-appsync-model-plugin/src/visitors/appsync-json-metadata-visitor.ts]:
    the visitor that turns the model and enum registries of the base visitor
    into a metadata document and renders that document as a typed module, an
    untyped module or a declaration stub.

    JavaScript values are modelled by [JSValue]; an object is the list of its
    own enumerable properties in insertion order.  Strings are sequences of
    code units below 256, numbers are the safe integers.  Three corners of
    the language are left out: the enumeration order of integer keys (which
    JavaScript lists first, in ascending order), the assignment under the
    key [__proto__] (which sets the prototype) and the call of a [toJSON]
    method by [JSON.stringify] (functions are opaque here).  A statement
    that depends on one of them says so in a hypothesis: [ordinaryKey] for
    the order of keys, [isJSON] or [wellFormed] for what is serialized. *)

From Stdlib Require Import String Ascii List ZArith Bool Lia.
From Stdlib Require Import DecimalString DecimalZ.
Import ListNotations.

Local Open Scope list_scope.
Local Open Scope string_scope.

(** ** JavaScript values *)

Unset Elimination Schemes.
Inductive JSValue : Type :=
| JSUndefined
| JSNull
| JSBool (b : bool)
| JSNumber (z : Z)
| JSString (s : string)
| JSArray (elements : list JSValue)
| JSObject (properties : list (string * JSValue))
| JSFunction (name : string).
Set Elimination Schemes.

(** [Record<string, A>]: own properties, in insertion order. *)
Definition JSRecord (A : Type) : Type := list (string * A).

Module Obj.

(** [o[k]] on own properties. *)
Fixpoint get {A} (o : JSRecord A) (k : string) : option A :=
  match o with
  | [] => None
  | (k', v) :: o' => if String.eqb k k' then Some v else get o' k
  end.

Definition hasOwnProperty {A} (o : JSRecord A) (k : string) : bool :=
  match get o k with Some _ => true | None => false end.

(** [o[k] = v]: an existing property keeps its place and takes the new
    value, a new property goes last.  That is the order of JavaScript for
    the keys that are no integer keys; an integer key is listed before
    them, and [__proto__] is no key of an ordinary object at all. *)
Fixpoint set {A} (o : JSRecord A) (k : string) (v : A) : JSRecord A :=
  match o with
  | [] => [(k, v)]
  | (k', v') :: o' =>
      if String.eqb k k' then (k', v) :: o' else (k', v') :: set o' k v
  end.

Definition keys {A} (o : JSRecord A) : list string := map fst o.

(** [Object.values(o)] *)
Definition values {A} (o : JSRecord A) : list A := map snd o.

(** [Object.entries(o)] *)
Definition entries {A} (o : JSRecord A) : list (string * A) := o.

(** The property names every ordinary object inherits from
    [Object.prototype]; all but [__proto__] name functions. *)
Definition prototype_functions : list string :=
  [ "constructor"; "hasOwnProperty"; "isPrototypeOf"; "propertyIsEnumerable";
    "toLocaleString"; "toString"; "valueOf";
    "__defineGetter__"; "__defineSetter__"; "__lookupGetter__"; "__lookupSetter__" ].

Definition inherited (k : string) : option JSValue :=
  if String.eqb k "__proto__" then Some (JSObject [])
  else if existsb (String.eqb k) prototype_functions then Some (JSFunction k)
  else None.

(** [k in o]: own properties first, then the prototype chain. *)
Definition has {A} (o : JSRecord A) (k : string) : bool :=
  hasOwnProperty o k || match inherited k with Some _ => true | None => false end.

(** [o[k]] read as an expression: an own property, else an inherited
    one, else [undefined]. *)
Definition member (o : JSRecord JSValue) (k : string) : JSValue :=
  match get o k with
  | Some v => v
  | None => match inherited k with Some v => v | None => JSUndefined end
  end.

End Obj.

(** Reading a property of a value; [None] when the value is no object or
    has no such own property. *)
Definition prop (v : JSValue) (k : string) : option JSValue :=
  match v with
  | JSObject ps => Obj.get ps k
  | _ => None
  end.

(** ** The registries of the base visitor *)

(** Modelled from the spec: [CodeGenConnectionType] of
    [utils/process-connections], the relationship kind tag, a string enum
    whose members are their own names. *)
Inductive CodeGenConnectionType : Type := HAS_ONE | BELONGS_TO | HAS_MANY.

Definition connectionTypeTag (k : CodeGenConnectionType) : string :=
  match k with
  | HAS_ONE => "HAS_ONE"
  | BELONGS_TO => "BELONGS_TO"
  | HAS_MANY => "HAS_MANY"
  end.

(** Modelled from the spec: [CodeGenField] and its connection info (a union
    discriminated by [kind]), as far as the visitor reads them: the has-one
    and has-many connections carry the field on the other side, the others
    the stored target name. *)
Inductive CodeGenField : Type :=
| mkCodeGenField (name type : string) (isList isNullable : bool)
                 (connectionInfo : option CodeGenFieldConnection)
with CodeGenFieldConnection : Type :=
| HasOne (associatedWith : CodeGenField)
| BelongsTo (targetName : string)
| HasMany (associatedWith : CodeGenField).

Module Field.
Definition name (f : CodeGenField) : string :=
  let (n, _, _, _, _) := f in n.
Definition type (f : CodeGenField) : string :=
  let (_, t, _, _, _) := f in t.
Definition isList (f : CodeGenField) : bool :=
  let (_, _, l, _, _) := f in l.
Definition isNullable (f : CodeGenField) : bool :=
  let (_, _, _, n, _) := f in n.
Definition connectionInfo (f : CodeGenField) : option CodeGenFieldConnection :=
  let (_, _, _, _, c) := f in c.
End Field.

Definition kind (c : CodeGenFieldConnection) : CodeGenConnectionType :=
  match c with
  | HasOne _ => HAS_ONE
  | BelongsTo _ => BELONGS_TO
  | HasMany _ => HAS_MANY
  end.

(** Modelled from the spec: a directive of a model, its arguments kept as
    the JavaScript value they are. *)
Module Directive.
Record t : Type := mk { name : string; arguments : JSValue }.
End Directive.

(** Modelled from the spec: [CodeGenModel]. *)
Module Model.
Record t : Type := mk {
  name : string;
  fields : list CodeGenField;
  directives : list Directive.t
}.
End Model.

(** Modelled from the spec: [CodeGenEnum]; [values] is a record from value
    name to value. *)
Module Enum.
Record t : Type := mk { name : string; values : JSRecord string }.
End Enum.

Definition CodeGenModelMap : Type := JSRecord Model.t.
Definition CodeGenEnumMap : Type := JSRecord Enum.t.

(** ** Configuration and visitor state *)

Record RawAppSyncModelMetadataConfig : Type := {
  raw_metadataTarget : option string   (* [metadataTarget?: string] *)
}.

Record ParsedAppSyncModelMetadataConfig : Type := {
  metadataTarget : string
}.

(** Modelled from the spec: the state of the visitor that the methods read,
    namely the parsed configuration, the model registry of the base visitor
    (which [processConnectionDirective] mutates) and its enum registry. *)
Record AppSyncJSONVisitor : Type := {
  _parsedConfig : ParsedAppSyncModelMetadataConfig;
  modelMap : CodeGenModelMap;
  enumMap : CodeGenEnumMap
}.

(** What the visitor inherits from [AppSyncModelVisitor] and imports from
    [pluralize] and [change-case]. *)
Class Collaborators : Type := {
  getModelName : Model.t -> string;
  getFieldName : CodeGenField -> string;
  getEnumName : Enum.t -> string;
  getSelectedModels : AppSyncJSONVisitor -> CodeGenModelMap;
  computeVersion : AppSyncJSONVisitor -> string;
  (** mutates the connection info of the fields of the model registry *)
  processConnectionDirective : CodeGenModelMap -> CodeGenModelMap;
  plural : string -> string;
  upperCaseFirst : string -> string
}.

(** What a call leaves behind: a returned text or a thrown [Error]. *)
Inductive Completion : Type :=
| Return (text : string)
| Throw (message : string).

(** ** JSON.stringify(value, null, 4) *)

(** The double quote and the line feed. *)
Definition dq : string := String "034"%char EmptyString.
Definition nl : string := String "010"%char EmptyString.

Definition hexDigit (n : nat) : ascii :=
  nth n ["0"; "1"; "2"; "3"; "4"; "5"; "6"; "7";
         "8"; "9"; "a"; "b"; "c"; "d"; "e"; "f"]%char "0"%char.

(** One code unit of a quoted string (QuoteJSONString). *)
Definition quoteUnit (c : ascii) : string :=
  let n := nat_of_ascii c in
  if Nat.eqb n 8 then "\b"
  else if Nat.eqb n 9 then "\t"
  else if Nat.eqb n 10 then "\n"
  else if Nat.eqb n 12 then "\f"
  else if Nat.eqb n 13 then "\r"
  else if Nat.eqb n 34 then "\" ++ dq
  else if Nat.eqb n 92 then "\\"
  else if Nat.ltb n 32 then
    "\u00" ++ String (hexDigit (n / 16)) (String (hexDigit (n mod 16)) "")
  else String c "".

Fixpoint quoteUnits (s : string) : string :=
  match s with
  | EmptyString => ""
  | String c s' => quoteUnit c ++ quoteUnits s'
  end.

Definition QuoteJSONString (s : string) : string := dq ++ quoteUnits s ++ dq.

(** Number::toString on a safe integer: its decimal digits.  (The
    exponent form starts at 1e21, far outside the safe integers.) *)
Definition NumberToString (z : Z) : string := NilZero.string_of_int (Z.to_int z).

(** The [space] argument 4. *)
Definition gap : string := "    ".

Definition wrap (open close stepback indent : string) (partial : list string) : string :=
  match partial with
  | [] => open ++ close
  | _ => open ++ nl ++ indent ++ String.concat ("," ++ nl ++ indent) partial
         ++ nl ++ stepback ++ close
  end.

(** SerializeJSONProperty: [None] is [undefined].  The step that calls a
    [toJSON] method is not modelled: the text is that of JavaScript for a
    value in which no object has a function under the key [toJSON]. *)
Fixpoint SerializeJSONProperty (indent : string) (v : JSValue) {struct v} : option string :=
  match v with
  | JSUndefined => None
  | JSFunction _ => None
  | JSNull => Some "null"
  | JSBool b => Some (if b then "true" else "false")
  | JSNumber z => Some (NumberToString z)
  | JSString s => Some (QuoteJSONString s)
  | JSArray elements =>
      let stepback := indent in
      let indent := stepback ++ gap in
      let partial :=
        map (fun e => match SerializeJSONProperty indent e with
                      | Some str => str
                      | None => "null"
                      end) elements in
      Some (wrap "[" "]" stepback indent partial)
  | JSObject properties =>
      let stepback := indent in
      let indent := stepback ++ gap in
      let partial :=
        flat_map (fun p => match SerializeJSONProperty indent (snd p) with
                           | Some str => [QuoteJSONString (fst p) ++ ": " ++ str]
                           | None => []
                           end) properties in
      Some (wrap "{" "}" stepback indent partial)
  end.

Definition JSON_stringify (v : JSValue) : option string := SerializeJSONProperty "" v.

(** A value inside a template literal. *)
Definition interpolate (o : option string) : string :=
  match o with Some s => s | None => "undefined" end.

(** ** JSON.parse(text) *)

Definition isWhitespace (c : ascii) : bool :=
  let n := nat_of_ascii c in
  Nat.eqb n 32 || Nat.eqb n 9 || Nat.eqb n 10 || Nat.eqb n 13.

Fixpoint skipWhitespace (s : string) : string :=
  match s with
  | String c s' => if isWhitespace c then skipWhitespace s' else s
  | EmptyString => EmptyString
  end.

Definition hexValue (c : ascii) : option nat :=
  let n := nat_of_ascii c in
  if Nat.leb 48 n && Nat.leb n 57 then Some (n - 48)
  else if Nat.leb 97 n && Nat.leb n 102 then Some (n - 87)
  else if Nat.leb 65 n && Nat.leb n 70 then Some (n - 55)
  else None.

(** The code unit a [\uXXXX] escape denotes; units above 255 are outside
    the strings modelled here. *)
Definition unicodeEscape (a b c d : ascii) : option ascii :=
  match hexValue a, hexValue b, hexValue c, hexValue d with
  | Some x, Some y, Some z, Some w =>
      let code := ((x * 16 + y) * 16 + z) * 16 + w in
      if Nat.ltb code 256 then Some (ascii_of_nat code) else None
  | _, _, _, _ => None
  end.

(** The code unit a one-letter escape denotes. *)
Definition simpleEscape (c : ascii) : option ascii :=
  let n := nat_of_ascii c in
  if Nat.eqb n 34 then Some c                      (* quotation mark *)
  else if Nat.eqb n 92 then Some c                 (* reverse solidus *)
  else if Nat.eqb n 47 then Some c                 (* solidus *)
  else if Nat.eqb n 98 then Some (ascii_of_nat 8)  (* b *)
  else if Nat.eqb n 102 then Some (ascii_of_nat 12) (* f *)
  else if Nat.eqb n 110 then Some (ascii_of_nat 10) (* n *)
  else if Nat.eqb n 114 then Some (ascii_of_nat 13) (* r *)
  else if Nat.eqb n 116 then Some (ascii_of_nat 9)  (* t *)
  else None.

Definition prepend (c : ascii) (r : option (string * string)) : option (string * string) :=
  match r with
  | Some (str, rest) => Some (String c str, rest)
  | None => None
  end.

(** The characters of a string literal after its opening quote: the
    string and the text after the closing quote. *)
Fixpoint parseString (s : string) : option (string * string) :=
  match s with
  | EmptyString => None
  | String c s' =>
      let n := nat_of_ascii c in
      if Nat.eqb n 34 then Some (EmptyString, s')
      else if Nat.eqb n 92 then
        match s' with
        | String e s'' =>
            match simpleEscape e with
            | Some u => prepend u (parseString s'')
            | None =>
                if Nat.eqb (nat_of_ascii e) 117 then
                  match s'' with
                  | String h1 (String h2 (String h3 (String h4 s3))) =>
                      match unicodeEscape h1 h2 h3 h4 with
                      | Some u => prepend u (parseString s3)
                      | None => None
                      end
                  | _ => None
                  end
                else None
            end
        | EmptyString => None
        end
      else if Nat.ltb n 32 then None
      else prepend c (parseString s')
  end.

Definition digitOf (c : ascii) : option (Decimal.uint -> Decimal.uint) :=
  let n := nat_of_ascii c in
  if Nat.eqb n 48 then Some Decimal.D0
  else if Nat.eqb n 49 then Some Decimal.D1
  else if Nat.eqb n 50 then Some Decimal.D2
  else if Nat.eqb n 51 then Some Decimal.D3
  else if Nat.eqb n 52 then Some Decimal.D4
  else if Nat.eqb n 53 then Some Decimal.D5
  else if Nat.eqb n 54 then Some Decimal.D6
  else if Nat.eqb n 55 then Some Decimal.D7
  else if Nat.eqb n 56 then Some Decimal.D8
  else if Nat.eqb n 57 then Some Decimal.D9
  else None.

(** The longest run of digits a text starts with. *)
Fixpoint parseDigits (s : string) : Decimal.uint * string :=
  match s with
  | String c s' =>
      match digitOf c with
      | Some d => let (u, rest) := parseDigits s' in (d u, rest)
      | None => (Decimal.Nil, s)
      end
  | EmptyString => (Decimal.Nil, EmptyString)
  end.

(** The integers a number holds exactly. *)
Definition MAX_SAFE_INTEGER : Z := 2 ^ 53 - 1.

Definition isSafeInteger (z : Z) : bool :=
  Z.leb (- MAX_SAFE_INTEGER) z && Z.leb z MAX_SAFE_INTEGER.

(** A fraction or an exponent follows. *)
Definition continuesNumber (s : string) : bool :=
  match s with
  | String c _ =>
      let n := nat_of_ascii c in
      Nat.eqb n 46 || Nat.eqb n 101 || Nat.eqb n 69
  | EmptyString => false
  end.

(** A number literal.  Only the literals of safe integers have a value
    among the numbers modelled here: for a fraction, an exponent, a
    negative zero or a larger magnitude the result is [None], which then
    does not say that JavaScript rejects the literal. *)
Definition parseNumber (s : string) : option (JSValue * string) :=
  let (negative, s) :=
    match s with
    | String c s' => if Nat.eqb (nat_of_ascii c) 45 then (true, s') else (false, s)
    | EmptyString => (false, s)
    end in
  let (u, rest) := parseDigits s in
  if negb (Decimal.uint_beq (Decimal.unorm u) u) then None
  else if continuesNumber rest then None
  else
    let z := Z.of_uint u in
    if negative && Z.eqb z 0 then None
    else
      let z := if negative then Z.opp z else z in
      if isSafeInteger z then Some (JSNumber z, rest) else None.

Definition parseLiteral (s : string) : option (JSValue * string) :=
  match s with
  | String "t" (String "r" (String "u" (String "e" rest))) => Some (JSBool true, rest)
  | String "f" (String "a" (String "l" (String "s" (String "e" rest)))) =>
      Some (JSBool false, rest)
  | String "n" (String "u" (String "l" (String "l" rest))) => Some (JSNull, rest)
  | _ => parseNumber s
  end.

(** A value, the elements of an array after the first bracket and the
    members of an object after the first brace; [fuel] bounds the calls. *)
Fixpoint parseValue (fuel : nat) (s : string) : option (JSValue * string) :=
  match fuel with
  | O => None
  | S fuel =>
      match skipWhitespace s with
      | EmptyString => None
      | String c rest =>
          let n := nat_of_ascii c in
          if Nat.eqb n 123 then
            match skipWhitespace rest with
            | String c' rest' =>
                if Nat.eqb (nat_of_ascii c') 125 then Some (JSObject [], rest')
                else parseMembers fuel rest []
            | EmptyString => None
            end
          else if Nat.eqb n 91 then
            match skipWhitespace rest with
            | String c' rest' =>
                if Nat.eqb (nat_of_ascii c') 93 then Some (JSArray [], rest')
                else parseElements fuel rest []
            | EmptyString => None
            end
          else if Nat.eqb n 34 then
            match parseString rest with
            | Some (str, rest') => Some (JSString str, rest')
            | None => None
            end
          else parseLiteral (String c rest)
      end
  end
with parseElements (fuel : nat) (s : string) (acc : list JSValue)
  : option (JSValue * string) :=
  match fuel with
  | O => None
  | S fuel =>
      match parseValue fuel s with
      | Some (v, rest) =>
          match skipWhitespace rest with
          | String c rest' =>
              let n := nat_of_ascii c in
              if Nat.eqb n 44 then parseElements fuel rest' (List.app acc [v])
              else if Nat.eqb n 93 then Some (JSArray (List.app acc [v]), rest')
              else None
          | EmptyString => None
          end
      | None => None
      end
  end
with parseMembers (fuel : nat) (s : string) (acc : JSRecord JSValue)
  : option (JSValue * string) :=
  match fuel with
  | O => None
  | S fuel =>
      match skipWhitespace s with
      | String q afterQuote =>
          if negb (Nat.eqb (nat_of_ascii q) 34) then None
          else
            match parseString afterQuote with
            | Some (k, afterKey) =>
                match skipWhitespace afterKey with
                | String colon afterColon =>
                    if negb (Nat.eqb (nat_of_ascii colon) 58) then None
                    else
                      match parseValue fuel afterColon with
                      | Some (v, rest) =>
                          match skipWhitespace rest with
                          | String c rest' =>
                              let n := nat_of_ascii c in
                              if Nat.eqb n 44 then parseMembers fuel rest' (Obj.set acc k v)
                              else if Nat.eqb n 125 then
                                Some (JSObject (Obj.set acc k v), rest')
                              else None
                          | EmptyString => None
                          end
                      | None => None
                      end
                | EmptyString => None
                end
            | None => None
            end
      | EmptyString => None
      end
  end.

(** [JSON.parse(text)]: [Some v] says that JavaScript reads [v]; [None]
    is a SyntaxError or a value outside the values modelled here, so
    nothing is concluded from it.  The length of the text is fuel enough
    for every text that [JSON_stringify] writes. *)
Definition JSON_parse (text : string) : option JSValue :=
  match parseValue (S (String.length text)) text with
  | Some (v, rest) =>
      match skipWhitespace rest with
      | EmptyString => Some v
      | String _ _ => None
      end
  | None => None
  end.

(** The values JSON has: no [undefined] and no function at any depth,
    safe integers, objects whose keys differ. *)
Fixpoint distinct (keys : list string) : bool :=
  match keys with
  | [] => true
  | k :: keys' => negb (existsb (String.eqb k) keys') && distinct keys'
  end.

Fixpoint isJSON (v : JSValue) : bool :=
  match v with
  | JSUndefined => false
  | JSFunction _ => false
  | JSNull => true
  | JSBool _ => true
  | JSNumber z => isSafeInteger z
  | JSString _ => true
  | JSArray elements => forallb isJSON elements
  | JSObject properties =>
      distinct (map fst properties) && forallb (fun p => isJSON (snd p)) properties
  end.

(** ** The visitor *)

Definition truthy (o : option string) : bool :=
  match o with
  | Some s => negb (String.eqb s "")
  | None => false
  end.

(** [a || b] on an optional string. *)
Definition orElse (o : option string) (d : string) : string :=
  match o with
  | Some s => if truthy o then s else d
  | None => d
  end.

(** The constructor, after [super(...)] has built the visitor [base]. *)
Definition constructor (base : AppSyncJSONVisitor) (rawConfig : RawAppSyncModelMetadataConfig)
  : AppSyncJSONVisitor :=
  {| _parsedConfig := {| metadataTarget := orElse (raw_metadataTarget rawConfig) "javascript" |};
     modelMap := modelMap base;
     enumMap := enumMap base |}.

Definition JSONGraphQLScalarType : JSRecord JSValue :=
  [ ("ID", JSString "ID"); ("String", JSString "String"); ("Int", JSString "Int");
    ("Float", JSString "Float"); ("Boolean", JSString "Boolean") ].

Section Visitor.

Context {collaborators : Collaborators}.

Definition pluralizeModelName (model : Model.t) : string :=
  plural (upperCaseFirst (Model.name model)).

(** [this.enumMap[gqlType].name] *)
Definition enumMapName (this : AppSyncJSONVisitor) (gqlType : string) : JSValue :=
  match Obj.get (enumMap this) gqlType with
  | Some enumObj => JSString (Enum.name enumObj)
  | None =>
      match Obj.inherited gqlType with
      | Some (JSFunction n) => JSString n
      | _ => JSUndefined
      end
  end.

Definition getType (this : AppSyncJSONVisitor) (gqlType : string) : JSValue :=
  if Obj.has JSONGraphQLScalarType gqlType then
    Obj.member JSONGraphQLScalarType gqlType
  else if Obj.has (enumMap this) gqlType then
    JSObject [("enum", enumMapName this gqlType)]
  else
    JSObject [("model", JSString gqlType)].

Definition generateModelAttributes (model : Model.t) : list JSValue :=
  map (fun d => JSObject [ ("type", JSString (Directive.name d));
                           ("properties", Directive.arguments d) ])
      (Model.directives model).

Definition generateFieldAttributes (field : CodeGenField) : list JSValue :=
  let result := [] in
  match Field.connectionInfo field with
  | Some connectionInfo =>
      let connectionAttribute :=
        [("connectionType", JSString (connectionTypeTag (kind connectionInfo)))] in
      let connectionAttribute :=
        match connectionInfo with
        | HasMany associatedWith | HasOne associatedWith =>
            Obj.set connectionAttribute "associatedWith"
                    (JSString (getFieldName associatedWith))
        | BelongsTo targetName =>
            Obj.set connectionAttribute "targetName" (JSString targetName)
        end in
      List.app result [JSObject [ ("type", JSString "connection");
                                  ("properties", JSObject connectionAttribute) ]]
  | None => result
  end.

(** The entry of one field, the object literal of the [reduce] callback. *)
Definition fieldEntry (this : AppSyncJSONVisitor) (field : CodeGenField) : JSValue :=
  JSObject [ ("name", JSString (getFieldName field));
             ("targetName", JSString (Field.name field));
             ("isArray", JSBool (Field.isList field));
             ("type", getType this (Field.type field));
             ("isRequired", JSBool (negb (Field.isNullable field)));
             ("attributes", JSArray (generateFieldAttributes field)) ].

Definition fieldEntries (this : AppSyncJSONVisitor) (fields : list CodeGenField)
  : JSRecord JSValue :=
  fold_left (fun acc field => Obj.set acc (getFieldName field) (fieldEntry this field))
            fields [].

(** The entry of one model, the [model] constant of the first loop. *)
Definition modelEntry (this : AppSyncJSONVisitor) (obj : Model.t) : JSValue :=
  JSObject [ ("syncable", JSBool true);
             ("name", JSString (getModelName obj));
             ("targetName", JSString (Model.name obj));
             ("pluralTargetName", JSString (pluralizeModelName obj));
             ("attributes", JSArray (generateModelAttributes obj));
             ("fields", JSObject (fieldEntries this (Model.fields obj))) ].

(** The entry of one enum, the [enumV] constant of the second loop. *)
Definition enumEntry (name : string) (enumObj : Enum.t) : JSValue :=
  JSObject [ ("name", JSString name);
             ("values", JSArray (map JSString (Obj.values (Enum.values enumObj)))) ].

Definition generateModels (this : AppSyncJSONVisitor) : JSRecord JSValue :=
  fold_left (fun models entry =>
               let obj := snd entry in
               Obj.set models (Model.name obj) (modelEntry this obj))
            (Obj.entries (getSelectedModels this)) [].

Definition generateEnums (this : AppSyncJSONVisitor) : JSRecord JSValue :=
  fold_left (fun enums entry =>
               let name := fst entry in
               let enumObj := snd entry in
               Obj.set enums (getEnumName enumObj) (enumEntry name enumObj))
            (Obj.entries (enumMap this)) [].

Definition generateMetaData (this : AppSyncJSONVisitor) : JSValue :=
  JSObject [ ("models", JSObject (generateModels this));
             ("enums", JSObject (generateEnums this));
             ("version", JSString (computeVersion this)) ].

Definition generateJSONMetaData (this : AppSyncJSONVisitor) : string :=
  let metaData := generateMetaData this in
  interpolate (JSON_stringify metaData).

Definition generateTypeScriptMetaData (this : AppSyncJSONVisitor) : string :=
  let metadatObj := generateMetaData this in
  let metaData := ["import { Schema } from " ++ dq ++ "@aws-amplify/datastore" ++ dq ++ ";"; ""] in
  let metaData :=
    List.app metaData
      ["export const schema: Schema = " ++ interpolate (JSON_stringify metadatObj) ++ ";"] in
  String.concat nl metaData.

Definition generateJavaScriptMetaData (this : AppSyncJSONVisitor) : string :=
  let metadatObj := generateMetaData this in
  let metaData := [] in
  let metaData :=
    List.app metaData
      ["export const schema = " ++ interpolate (JSON_stringify metadatObj) ++ ";"] in
  String.concat nl metaData.

Definition generateTypeDeclaration (this : AppSyncJSONVisitor) : string :=
  String.concat nl
    ["import { Schema } from '@aws-amplify/datastore';"; ""; "export declare const schema: Schema;"].

(** [generate()]: the visitor after the call and what the call completes with. *)
Definition generate (this : AppSyncJSONVisitor) : AppSyncJSONVisitor * Completion :=
  let this := {| _parsedConfig := _parsedConfig this;
                 modelMap := processConnectionDirective (modelMap this);
                 enumMap := enumMap this |} in
  let target := metadataTarget (_parsedConfig this) in
  if String.eqb target "typescript" then
    (this, Return (generateTypeScriptMetaData this))
  else if String.eqb target "javascript" then
    (this, Return (generateJavaScriptMetaData this))
  else if String.eqb target "typeDeclaration" then
    (this, Return (generateTypeDeclaration this))
  else
    (this, Throw ("Unsupported metadataTarget " ++ target
                  ++ ". Supported targets are javascript and typescript")).

End Visitor.

(** ** Reading a document *)

(** Following property names down a value. *)
Fixpoint path (v : JSValue) (ks : list string) : option JSValue :=
  match ks with
  | [] => Some v
  | k :: ks' =>
      match prop v k with
      | Some v' => path v' ks'
      | None => None
      end
  end.

(** [s.includes(sub)] *)
Definition includes (s sub : string) : Prop :=
  exists before after, s = before ++ sub ++ after.

(** The five scalar tags. *)
Definition scalarTags : list string := Obj.keys JSONGraphQLScalarType.

(** ** Notions for the statements and their proofs *)

(** A loop that assigns [val x] under [key x] for every [x] of a list. *)
Definition assignAll {A B} (key : A -> string) (val : A -> B) (l : list A) (acc : JSRecord B)
  : JSRecord B :=
  fold_left (fun acc x => Obj.set acc (key x) (val x)) l acc.

(** A target mode that is none of the three. *)
Definition unsupported (target : string) : Prop :=
  target <> "typescript" /\ target <> "javascript" /\ target <> "typeDeclaration".

(** Indentation. *)
Fixpoint isSpaces (s : string) : bool :=
  match s with
  | EmptyString => true
  | String c s' => Ascii.eqb c " " && isSpaces s'
  end.

(** What a serialized value starts with: no white space, no closing
    bracket, no closing brace. *)
Definition startsValue (s : string) : bool :=
  match s with
  | String c _ =>
      let n := nat_of_ascii c in
      negb (isWhitespace c) && negb (Nat.eqb n 93) && negb (Nat.eqb n 125)
  | EmptyString => false
  end.

(** What follows a serialized value: a comma, a line feed or nothing. *)
Definition delimited (rest : string) : bool :=
  match rest with
  | String c _ =>
      let n := nat_of_ascii c in
      Nat.eqb n 44 || Nat.eqb n 10
  | EmptyString => true
  end.

Definition isDigit (c : ascii) : bool :=
  match digitOf c with Some _ => true | None => false end.

(** Induction on values, through the lists they hold. *)
Section Induction.

Variable P : JSValue -> Prop.
Hypothesis onUndefined : P JSUndefined.
Hypothesis onNull : P JSNull.
Hypothesis onBool : forall b, P (JSBool b).
Hypothesis onNumber : forall z, P (JSNumber z).
Hypothesis onString : forall s, P (JSString s).
Hypothesis onArray : forall elements, Forall P elements -> P (JSArray elements).
Hypothesis onObject :
  forall properties, Forall (fun p => P (snd p)) properties -> P (JSObject properties).
Hypothesis onFunction : forall name, P (JSFunction name).

Fixpoint JSValue_ind (v : JSValue) : P v :=
  match v with
  | JSUndefined => onUndefined
  | JSNull => onNull
  | JSBool b => onBool b
  | JSNumber z => onNumber z
  | JSString s => onString s
  | JSArray elements =>
      onArray elements
        ((fix all (l : list JSValue) : Forall P l :=
            match l with
            | [] => Forall_nil P
            | e :: l' => Forall_cons e (JSValue_ind e) (all l')
            end) elements)
  | JSObject properties =>
      onObject properties
        ((fix all (l : list (string * JSValue)) : Forall (fun p => P (snd p)) l :=
            match l with
            | [] => Forall_nil _
            | p :: l' => Forall_cons p (JSValue_ind (snd p)) (all l')
            end) properties)
  | JSFunction name => onFunction name
  end.

End Induction.

(** The calls [parseValue] makes on the text of a value. *)
Fixpoint size (v : JSValue) : nat :=
  match v with
  | JSArray elements => S (fold_right (fun e n => S (size e + n)) 0 elements)
  | JSObject properties => S (fold_right (fun p n => S (size (snd p) + n)) 0 properties)
  | _ => 1
  end.

Definition sizes (l : list JSValue) : nat := fold_right (fun e n => S (size e + n)) 0 l.

Definition elementText (indent : string) (e : JSValue) : string :=
  match SerializeJSONProperty indent e with
  | Some str => str
  | None => "null"
  end.

Definition memberText (indent : string) (p : string * JSValue) : string :=
  QuoteJSONString (fst p) ++ ": " ++ elementText indent (snd p).

(** The text after the first item of a bracketed list. *)
Fixpoint printTail (close stepback indent : string) (partial : list string) (rest : string)
  : string :=
  match partial with
  | [] => nl ++ stepback ++ close ++ rest
  | p :: partial' =>
      "," ++ nl ++ indent ++ p ++ printTail close stepback indent partial' rest
  end.

(** A value of JSON has a text, and the text parses back to the value. *)
Definition roundTrips (v : JSValue) : Prop :=
  isJSON v = true ->
  forall indent, isSpaces indent = true ->
  exists str,
    SerializeJSONProperty indent v = Some str
    /\ startsValue str = true
    /\ size v <= String.length str
    /\ forall fuel rest,
         size v <= fuel -> delimited rest = true ->
         parseValue fuel (str ++ rest) = Some (v, rest).

Definition assign (l : list (string * JSValue)) (acc : JSRecord JSValue) : JSRecord JSValue :=
  fold_left (fun acc p => Obj.set acc (fst p) (snd p)) l acc.

Definition memberSizes (l : list (string * JSValue)) : nat :=
  fold_right (fun p n => S (size (snd p) + n)) 0 l.

Definition textLengths (partial : list string) : nat :=
  length partial + fold_right (fun p n => String.length p + n) 0 partial.

(** The fields and directives of a model hold nothing but JSON. *)
Definition plainModel (obj : Model.t) : Prop :=
  (forall field, In field (Model.fields obj) -> Obj.inherited (Field.type field) = None)
  /\ (forall d, In d (Model.directives obj) -> isJSON (Directive.arguments d) = true).

(** [undefined] and functions, which [JSON.stringify] does not write. *)
Definition unwritten (v : JSValue) : bool :=
  match v with
  | JSUndefined => true
  | JSFunction _ => true
  | _ => false
  end.

(** The value that the text of a value denotes: [null] stands for an
    unwritten element of an array, and an unwritten property is left out. *)
Fixpoint written (v : JSValue) : JSValue :=
  match v with
  | JSUndefined => JSNull
  | JSFunction _ => JSNull
  | JSArray elements => JSArray (map written elements)
  | JSObject properties =>
      JSObject (flat_map (fun p => if unwritten (snd p) then []
                                   else [(fst p, written (snd p))]) properties)
  | _ => v
  end.

(** An object with a [toJSON] method, which [JSON.stringify] would call. *)
Definition hasToJSON (properties : JSRecord JSValue) : bool :=
  match Obj.get properties "toJSON" with
  | Some (JSFunction _) => true
  | _ => false
  end.

(** The values of the model that are values of JavaScript and that
    [SerializeJSONProperty] writes as JavaScript does: every number a safe
    integer, the keys of every object pairwise different, no object with a
    [toJSON] method. *)
Fixpoint wellFormed (v : JSValue) : bool :=
  match v with
  | JSNumber z => isSafeInteger z
  | JSArray elements => forallb wellFormed elements
  | JSObject properties =>
      negb (hasToJSON properties)
      && distinct (map fst properties)
      && forallb (fun p => wellFormed (snd p)) properties
  | _ => true
  end.

Fixpoint onlyDigits (s : string) : bool :=
  match s with
  | EmptyString => true
  | String c s' => isDigit c && onlyDigits s'
  end.

(** The decimal text of a non-negative integer, without leading zeros:
    the keys that JavaScript lists first (every array index is one). *)
Definition isIntegerKey (k : string) : bool :=
  match k with
  | EmptyString => false
  | String c rest =>
      if Ascii.eqb c "0" then String.eqb rest "" else isDigit c && onlyDigits rest
  end.

(** A key that an assignment adds after the keys already there: no
    integer key and not [__proto__]. *)
Definition ordinaryKey (k : string) : bool :=
  negb (isIntegerKey k) && negb (String.eqb k "__proto__").

(** Modelled from the spec: the registry [mapping<name, Model>] that
    [getSelectedModels()] of the base visitor returns.  The keys of an
    object differ, and every model is stored under its own schema name. *)
Definition keyedByName (models : CodeGenModelMap) : Prop :=
  NoDup (Obj.keys models)
  /\ forall key obj, In (key, obj) models -> Model.name obj = key.

(** ** A sample visitor

    Collaborators for the closed examples below: a naming function for
    models that differs from the schema name, the stored name for fields,
    the capitalized stored name for enums, and utilities that agree with
    [pluralize] and [change-case] on the names used. *)
Module Sample.

Definition upperCaseUnit (c : ascii) : ascii :=
  let n := nat_of_ascii c in
  if Nat.leb 97 n && Nat.leb n 122 then ascii_of_nat (n - 32) else c.

Definition capitalize (s : string) : string :=
  match s with
  | EmptyString => EmptyString
  | String c s' => String (upperCaseUnit c) s'
  end.

Definition collaborators : Collaborators := {|
  getModelName := fun m =>
    Model.name m ++ (match Model.fields m with [] => "Stub" | _ => "Model" end);
  getFieldName := Field.name;
  getEnumName := fun e => capitalize (Enum.name e);
  getSelectedModels := modelMap;
  computeVersion := fun _ => "b1946ac92492d2347c6235b4d2611184";
  processConnectionDirective := fun models => models;
  plural := fun s => s ++ "s";
  upperCaseFirst := capitalize |}.

Definition title : CodeGenField := mkCodeGenField "title" "String" false false None.
Definition status : CodeGenField := mkCodeGenField "status" "Status" false true None.
Definition todo : CodeGenField :=
  mkCodeGenField "todo" "Todo" false true (Some (BelongsTo "taskTodoId")).
Definition tasks : CodeGenField :=
  mkCodeGenField "tasks" "Task" true true (Some (HasMany todo)).

Definition Todo : Model.t :=
  Model.mk "Todo" [title; status; tasks]
           [Directive.mk "model" (JSObject []);
            Directive.mk "key" (JSObject [("fields", JSArray [JSString "title"])])].
Definition Task : Model.t :=
  Model.mk "Task" [title; todo] [Directive.mk "model" (JSObject [])].

Definition Status : Enum.t := Enum.mk "Status" [("OPEN", "OPEN"); ("DONE", "DONE")].

Definition visitor (target : string) : AppSyncJSONVisitor := {|
  _parsedConfig := {| metadataTarget := target |};
  modelMap := [("Todo", Todo); ("Task", Task)];
  enumMap := [("Status", Status)] |}.

Definition javascript : AppSyncJSONVisitor := visitor "javascript".

(** An enum registered under the name of a scalar. *)
Definition scalarNamedEnum : AppSyncJSONVisitor := {|
  _parsedConfig := {| metadataTarget := "javascript" |};
  modelMap := [];
  enumMap := [("String", Enum.mk "String" [("SHORT", "SHORT"); ("LONG", "LONG")])] |}.

(** A model without fields and directives. *)
Definition Archive : Model.t := Model.mk "Archive" [] [].

(** Two enums with one display name. *)
Definition lowerStatus : Enum.t := Enum.mk "status" [("ON", "ON"); ("OFF", "OFF")].
Definition sharedDisplayName : AppSyncJSONVisitor := {|
  _parsedConfig := {| metadataTarget := "javascript" |};
  modelMap := [];
  enumMap := [("Status", Status); ("status", lowerStatus)] |}.

(** Other registries, and the declaration target. *)
Definition declarationOnly : AppSyncJSONVisitor := {|
  _parsedConfig := {| metadataTarget := "typeDeclaration" |};
  modelMap := [("Archive", Archive)];
  enumMap := enumMap sharedDisplayName |}.

(** No model and no enum. *)
Definition emptyRegistries : AppSyncJSONVisitor := {|
  _parsedConfig := {| metadataTarget := "javascript" |};
  modelMap := [];
  enumMap := [] |}.

(** A field whose raw type is a name every object inherits. *)
Definition describe : CodeGenField := mkCodeGenField "describe" "toString" false true None.
Definition inheritedType : AppSyncJSONVisitor := {|
  _parsedConfig := {| metadataTarget := "javascript" |};
  modelMap := [("Note", Model.mk "Note" [title; describe]
                          [Directive.mk "model" JSUndefined])];
  enumMap := [] |}.

(** The registries of a schema that declares a model type named
    [toString] and a field of that type. *)
Definition Note : Model.t :=
  Model.mk "Note" [title; describe] [Directive.mk "model" (JSObject [])].
Definition ToString : Model.t :=
  Model.mk "toString" [title] [Directive.mk "model" (JSObject [])].
Definition modelNamedToString (target : string) : AppSyncJSONVisitor := {|
  _parsedConfig := {| metadataTarget := target |};
  modelMap := [("Note", Note); ("toString", ToString)];
  enumMap := [] |}.

End Sample.

(** ** Objects: reading after writing *)

Lemma get_set_same {A} (o : JSRecord A) k v : Obj.get (Obj.set o k v) k = Some v.
Proof.
  induction o as [|[k' v'] o IH]; simpl.
  - now rewrite String.eqb_refl.
  - destruct (String.eqb k k') eqn:E; simpl; rewrite E; auto.
Qed.

Lemma get_set_other {A} (o : JSRecord A) k k' v :
  k <> k' -> Obj.get (Obj.set o k v) k' = Obj.get o k'.
Proof.
  intros Hne. induction o as [|[k0 v0] o IH]; simpl.
  - destruct (String.eqb k' k) eqn:E; auto.
    apply String.eqb_eq in E. congruence.
  - destruct (String.eqb k k0) eqn:E; simpl.
    + apply String.eqb_eq in E. subst k0.
      destruct (String.eqb k' k) eqn:E'; auto.
      apply String.eqb_eq in E'. congruence.
    + now rewrite IH.
Qed.

Section Assignments.

Context {A B : Type} (key : A -> string) (val : A -> B).

Lemma assignAll_untouched l : forall acc k,
  (forall x, In x l -> key x <> k) ->
  Obj.get (assignAll key val l acc) k = Obj.get acc k.
Proof.
  induction l as [|x l IH]; intros acc k Hk; simpl; auto.
  unfold assignAll in *. simpl. rewrite IH.
  - apply get_set_other. apply Hk. now left.
  - intros y Hy. apply Hk. now right.
Qed.

Lemma assignAll_last before x after acc :
  (forall y, In y after -> key y <> key x) ->
  Obj.get (assignAll key val (before ++ x :: after)%list acc) (key x) = Some (val x).
Proof.
  intros Hafter. unfold assignAll. rewrite fold_left_app. simpl.
  fold (assignAll key val after (Obj.set (fold_left (fun acc x => Obj.set acc (key x) (val x)) before acc)
                                 (key x) (val x))).
  rewrite assignAll_untouched by assumption.
  apply get_set_same.
Qed.

Lemma assignAll_origin l : forall acc k b,
  Obj.get (assignAll key val l acc) k = Some b ->
  Obj.get acc k = Some b \/ exists x, In x l /\ key x = k /\ b = val x.
Proof.
  induction l as [|x l IH]; intros acc k b H; simpl in *; auto.
  unfold assignAll in *. simpl in H. apply IH in H. destruct H as [H|[y [Hy H]]].
  - destruct (string_dec (key x) k) as [E|E].
    + subst k. rewrite get_set_same in H. inversion H. right. exists x. simpl. auto.
    + rewrite get_set_other in H by assumption. now left.
  - right. exists y. simpl. auto.
Qed.

Lemma assignAll_present l : forall acc x,
  In x l -> exists b, Obj.get (assignAll key val l acc) (key x) = Some b.
Proof.
  intros acc x Hin. apply in_split in Hin. destruct Hin as [l1 [l2 ->]].
  revert l1 acc. induction l2 as [|y l2 IH] using rev_ind; intros l1 acc.
  - exists (val x). apply assignAll_last. intros y [].
  - destruct (string_dec (key y) (key x)) as [E|E].
    + exists (val y). rewrite <- E.
      replace (l1 ++ x :: l2 ++ [y])%list with ((l1 ++ x :: l2) ++ y :: [])%list
        by (rewrite <- app_assoc; reflexivity).
      apply assignAll_last. intros z [].
    + destruct (IH l1 acc) as [b Hb]. exists b.
      replace (l1 ++ x :: l2 ++ [y])%list with ((l1 ++ x :: l2) ++ [y])%list
        by (rewrite <- app_assoc; reflexivity).
      unfold assignAll in *. rewrite fold_left_app. simpl.
      rewrite get_set_other; assumption.
Qed.

End Assignments.

Section Properties.

Context {collaborators : Collaborators}.

Lemma generateModels_assignAll this :
  generateModels this
  = assignAll (fun entry => Model.name (snd entry))
              (fun entry => modelEntry this (snd entry))
              (getSelectedModels this) [].
Proof. reflexivity. Qed.

Lemma generateEnums_assignAll this :
  generateEnums this
  = assignAll (fun entry => getEnumName (snd entry))
              (fun entry => enumEntry (fst entry) (snd entry))
              (enumMap this) [].
Proof. reflexivity. Qed.

Lemma fieldEntries_assignAll this fields :
  fieldEntries this fields = assignAll getFieldName (fieldEntry this) fields [].
Proof. reflexivity. Qed.

Lemma path_models this k ks :
  path (generateMetaData this) ("models" :: k :: ks)
  = match Obj.get (generateModels this) k with
    | Some e => path e ks
    | None => None
    end.
Proof. reflexivity. Qed.

Lemma path_enums this k ks :
  path (generateMetaData this) ("enums" :: k :: ks)
  = match Obj.get (generateEnums this) k with
    | Some e => path e ks
    | None => None
    end.
Proof. reflexivity. Qed.

(** Every entry of the models mapping is the entry of a selected model,
    stored under that model's schema name. *)
Lemma generateModels_origin this k e :
  Obj.get (generateModels this) k = Some e ->
  exists key obj, In (key, obj) (getSelectedModels this)
                  /\ Model.name obj = k /\ e = modelEntry this obj.
Proof.
  rewrite generateModels_assignAll. intros H.
  apply assignAll_origin in H. destruct H as [H|[[key obj] [Hin [Hk He]]]].
  - discriminate.
  - exists key, obj. auto.
Qed.

(** *** The type resolver *)

Lemma scalar_test_fails gqlType :
  ~ In gqlType scalarTags -> Obj.inherited gqlType = None ->
  Obj.has JSONGraphQLScalarType gqlType = false.
Proof.
  intros Hnot Hinh. unfold Obj.has, Obj.hasOwnProperty. rewrite Hinh.
  unfold scalarTags in Hnot. simpl in *.
  repeat match goal with
         | |- context [String.eqb gqlType ?t] =>
             destruct (String.eqb_spec gqlType t); [exfalso; apply Hnot; subst; tauto|]
         end.
  reflexivity.
Qed.

Lemma scalar_test_holds gqlType :
  In gqlType scalarTags ->
  Obj.has JSONGraphQLScalarType gqlType = true
  /\ Obj.member JSONGraphQLScalarType gqlType = JSString gqlType.
Proof.
  unfold scalarTags. simpl.
  intros [<-|[<-|[<-|[<-|[<-|[]]]]]]; split; reflexivity.
Qed.

(** C1, as amended: the scalar test comes first.  For a raw type name
    that is a key of the enum registry, [getType] returns the enum form
    [{enum: <name stored in the registry entry>}] when the name is none of
    the five scalar tags and no property name inherited from
    [Object.prototype]; when it is one of the five scalar tags, [getType]
    returns the scalar tag. *)
Theorem getType_enum_after_scalar this gqlType enumObj :
  Obj.get (enumMap this) gqlType = Some enumObj ->
  (~ In gqlType scalarTags -> Obj.inherited gqlType = None ->
   getType this gqlType = JSObject [("enum", JSString (Enum.name enumObj))])
  /\ (In gqlType scalarTags -> getType this gqlType = JSString gqlType).
Proof.
  intros Hget. split.
  - intros Hnot Hinh. unfold getType.
    rewrite (scalar_test_fails _ Hnot Hinh).
    unfold Obj.has, Obj.hasOwnProperty, enumMapName. rewrite Hget. reflexivity.
  - intros Hin. unfold getType.
    destruct (scalar_test_holds _ Hin) as [-> ->]. reflexivity.
Qed.

(** *** The field-attribute builder *)

(** C4: a field with connection info gets exactly one attribute, of type
    "connection"; its properties hold [associatedWith], the display name
    of the field on the other side, for a has-many or has-one connection,
    and [targetName], the stored target name, otherwise; never both. *)
Theorem generateFieldAttributes_connection field connectionInfo :
  Field.connectionInfo field = Some connectionInfo ->
  exists properties,
    generateFieldAttributes field
    = [JSObject [("type", JSString "connection"); ("properties", JSObject properties)]]
    /\ Obj.get properties "connectionType"
       = Some (JSString (connectionTypeTag (kind connectionInfo)))
    /\ match connectionInfo with
       | HasMany associatedWith | HasOne associatedWith =>
           Obj.get properties "associatedWith" = Some (JSString (getFieldName associatedWith))
           /\ Obj.hasOwnProperty properties "targetName" = false
       | BelongsTo targetName =>
           Obj.get properties "targetName" = Some (JSString targetName)
           /\ Obj.hasOwnProperty properties "associatedWith" = false
       end.
Proof.
  intros H. unfold generateFieldAttributes. rewrite H.
  destruct connectionInfo; simpl; eexists; repeat split; reflexivity.
Qed.

(** C10: every field entry has an [attributes] key, holding the list of
    the field-attribute builder, the empty list for a field without
    connection info; so every field entry of every model of the document
    has an [attributes] list. *)
Theorem attributes_on_every_field this :
  (forall field,
      prop (fieldEntry this field) "attributes"
      = Some (JSArray (generateFieldAttributes field))
      /\ (Field.connectionInfo field = None ->
          prop (fieldEntry this field) "attributes" = Some (JSArray [])))
  /\ (forall model fieldName entry,
         path (generateMetaData this) ["models"; model; "fields"; fieldName] = Some entry ->
         exists attributes, prop entry "attributes" = Some (JSArray attributes)).
Proof.
  split.
  - intros field. split; [reflexivity|].
    intros H. simpl. unfold generateFieldAttributes. rewrite H. reflexivity.
  - intros model fieldName entry. rewrite path_models.
    destruct (Obj.get (generateModels this) model) as [e|] eqn:He; [|discriminate].
    apply generateModels_origin in He. destruct He as [key [obj [_ [_ ->]]]].
    simpl. rewrite fieldEntries_assignAll.
    destruct (Obj.get _ fieldName) as [fe|] eqn:Hfe; [|discriminate].
    intros Heq. inversion Heq. subst fe.
    apply assignAll_origin in Hfe. destruct Hfe as [Hfe|[f [_ [_ ->]]]]; [discriminate|].
    eexists. reflexivity.
Qed.

(** X1: a field whose raw type is one of the five scalar tags has that tag
    as its [type]; [isRequired] is the negation of "is nullable" and
    [isArray] mirrors "is list". *)
Theorem scalar_field_entry this field :
  In (Field.type field) scalarTags ->
  prop (fieldEntry this field) "type" = Some (JSString (Field.type field))
  /\ prop (fieldEntry this field) "isRequired" = Some (JSBool (negb (Field.isNullable field)))
  /\ prop (fieldEntry this field) "isArray" = Some (JSBool (Field.isList field)).
Proof.
  intros Hin. unfold fieldEntry, getType.
  destruct (scalar_test_holds _ Hin) as [-> ->]. repeat split; reflexivity.
Qed.

(** X2: the fields mapping of a model is keyed by display name: every
    entry stored under a key comes from a field of the model with that
    display name, repeats it as [name] and keeps the original name of the
    field as [targetName]. *)
Theorem fields_keyed_by_display_name this obj k entry :
  path (modelEntry this obj) ["fields"; k] = Some entry ->
  exists field,
    In field (Model.fields obj)
    /\ getFieldName field = k
    /\ prop entry "name" = Some (JSString k)
    /\ prop entry "targetName" = Some (JSString (Field.name field)).
Proof.
  unfold modelEntry. cbn [path prop Obj.get String.eqb Ascii.eqb Bool.eqb].
  rewrite fieldEntries_assignAll.
  destruct (Obj.get _ k) as [e|] eqn:He; [|discriminate].
  intros H. inversion H. subst e.
  apply assignAll_origin in He. destruct He as [He|[field [Hin [Hk ->]]]]; [discriminate|].
  exists field. subst k. repeat split; auto.
Qed.

(** *** The metadata document *)

(** C2, as amended: the plural target name is computed from the schema
    name.  For every selected model the entry stored under its schema name
    has [pluralTargetName] equal to [plural(upperCaseFirst(<schema name>))];
    for the schema name "Todo" that is "Todos" whenever the two utilities
    turn "Todo" into "Todos". *)
Theorem pluralTargetName_of_schema_name this key obj :
  In (key, obj) (getSelectedModels this) ->
  path (generateMetaData this) ["models"; Model.name obj; "pluralTargetName"]
  = Some (JSString (plural (upperCaseFirst (Model.name obj))))
  /\ (Model.name obj = "Todo" -> plural (upperCaseFirst "Todo") = "Todos" ->
      path (generateMetaData this) ["models"; "Todo"; "pluralTargetName"]
      = Some (JSString "Todos")).
Proof.
  intros Hin.
  assert (H : path (generateMetaData this) ["models"; Model.name obj; "pluralTargetName"]
              = Some (JSString (plural (upperCaseFirst (Model.name obj))))).
  { rewrite path_models.
    destruct (assignAll_present (fun entry => Model.name (snd entry))
                (fun entry => modelEntry this (snd entry))
                (getSelectedModels this) [] (key, obj) Hin) as [e He].
    rewrite <- generateModels_assignAll in He. simpl in He. rewrite He.
    apply generateModels_origin in He. destruct He as [key' [obj' [_ [Hname ->]]]].
    simpl. unfold pluralizeModelName. now rewrite Hname. }
  split; [exact H|].
  intros Hname Hplural. rewrite Hname in H. now rewrite <- Hplural.
Qed.

(** The loop assigns under [obj.name] (line 147): the entry under a schema
    name is that of the last selected model with that schema name. *)
Lemma generateModels_last this before key obj after :
  getSelectedModels this = (before ++ (key, obj) :: after)%list ->
  (forall entry, In entry after -> Model.name (snd entry) <> Model.name obj) ->
  Obj.get (generateModels this) (Model.name obj) = Some (modelEntry this obj).
Proof.
  intros Hsel Hafter. rewrite generateModels_assignAll, Hsel.
  apply (assignAll_last (fun entry => Model.name (snd entry))
           (fun entry => modelEntry this (snd entry)) before (key, obj) after []).
  exact Hafter.
Qed.

(** In a registry keyed by name, no entry after a model has the schema
    name of that model. *)
Lemma keyedByName_later (before after : CodeGenModelMap) key obj :
  keyedByName (before ++ (key, obj) :: after)%list ->
  forall entry, In entry after -> Model.name (snd entry) <> Model.name obj.
Proof.
  intros [Hnodup Hkeyed] [key' obj'] Hin. cbn [snd].
  rewrite (Hkeyed key obj) by (apply in_or_app; right; now left).
  rewrite (Hkeyed key' obj') by (apply in_or_app; right; now right).
  unfold Obj.keys in Hnodup. rewrite map_app in Hnodup. cbn [map fst] in Hnodup.
  apply NoDup_remove_2 in Hnodup. intros ->. apply Hnodup.
  apply in_or_app. right. exact (in_map fst after (key, obj') Hin).
Qed.

(** C5: for every selected model of a registry [mapping<name, Model>], the
    entry of the model is in the models mapping under its original schema
    name, the [name] stored in that entry is its display name and the
    [targetName] stored there is the schema name, whether or not the two
    names differ. *)
Theorem models_keyed_by_schema_name this key obj :
  keyedByName (getSelectedModels this) ->
  In (key, obj) (getSelectedModels this) ->
  Obj.get (generateModels this) (Model.name obj) = Some (modelEntry this obj)
  /\ path (generateMetaData this) ["models"; Model.name obj; "name"]
     = Some (JSString (getModelName obj))
  /\ path (generateMetaData this) ["models"; Model.name obj; "targetName"]
     = Some (JSString (Model.name obj)).
Proof.
  intros Hkeyed Hin.
  destruct (in_split _ _ Hin) as [before [after Hsel]].
  assert (H : Obj.get (generateModels this) (Model.name obj) = Some (modelEntry this obj)).
  { apply (generateModels_last this before key obj after Hsel).
    apply (keyedByName_later before after key obj). now rewrite <- Hsel. }
  split; [exact H|].
  rewrite !path_models, H. split; reflexivity.
Qed.

(** C6, as amended: an enum of the registry that no later enum of the
    registry shares its display name with has an entry in the enums
    mapping under its display name; the [name] of that entry is the
    registry key and its [values] are the values of the enum, in order. *)
Theorem enums_keyed_by_display_name this before name enumObj after :
  enumMap this = (before ++ (name, enumObj) :: after)%list ->
  (forall entry, In entry after -> getEnumName (snd entry) <> getEnumName enumObj) ->
  path (generateMetaData this) ["enums"; getEnumName enumObj; "name"]
  = Some (JSString name)
  /\ path (generateMetaData this) ["enums"; getEnumName enumObj; "values"]
     = Some (JSArray (map JSString (Obj.values (Enum.values enumObj)))).
Proof.
  intros Hmap Hafter.
  assert (H : Obj.get (generateEnums this) (getEnumName enumObj)
              = Some (enumEntry name enumObj)).
  { rewrite generateEnums_assignAll, Hmap.
    apply (assignAll_last (fun entry => getEnumName (snd entry))
             (fun entry => enumEntry (fst entry) (snd entry)) before (name, enumObj) after []).
    exact Hafter. }
  rewrite !path_enums, H. split; reflexivity.
Qed.

(** *** Rendering *)

(** C3: [generate()] throws exactly when the target mode is none of
    "typescript", "javascript" and "typeDeclaration"; the message of the
    error includes the target as it is, and no text is returned. *)
Theorem generate_throws_iff_unsupported this :
  ((exists message, snd (generate this) = Throw message)
   <-> unsupported (metadataTarget (_parsedConfig this)))
  /\ (forall message,
         snd (generate this) = Throw message ->
         includes message (metadataTarget (_parsedConfig this))
         /\ forall text, snd (generate this) <> Return text).
Proof.
  unfold generate, unsupported. cbn [_parsedConfig].
  destruct (String.eqb_spec (metadataTarget (_parsedConfig this)) "typescript") as [E1|E1];
    [|destruct (String.eqb_spec (metadataTarget (_parsedConfig this)) "javascript") as [E2|E2];
      [|destruct (String.eqb_spec (metadataTarget (_parsedConfig this)) "typeDeclaration")
          as [E3|E3]]];
    cbn [snd]; (split; [split|]).
  all: try (intros [message H]; discriminate).
  all: try (intros message H; discriminate).
  all: try (intros [H1 [H2 H3]]; congruence).
  - intros _. auto.
  - intros _. eexists. reflexivity.
  - intros message H. injection H as <-. split.
    + exists "Unsupported metadataTarget ",
        ". Supported targets are javascript and typescript". reflexivity.
    + intros text Ht. discriminate.
Qed.

(** C8: for the target "typeDeclaration", [generate()] returns three fixed
    lines, the import of the Schema type, an empty line and the declared
    constant, whatever the registries hold. *)
Theorem generate_typeDeclaration this :
  metadataTarget (_parsedConfig this) = "typeDeclaration" ->
  snd (generate this)
  = Return ("import { Schema } from '@aws-amplify/datastore';" ++ nl
            ++ "" ++ nl
            ++ "export declare const schema: Schema;").
Proof.
  intros H. unfold generate. simpl. rewrite H. reflexivity.
Qed.

(** C9: an unset or empty [metadataTarget] option is read as
    "javascript": the visitor built from it returns the untyped module and
    does not throw. *)
Theorem falsy_metadataTarget_is_javascript base rawConfig :
  raw_metadataTarget rawConfig = None \/ raw_metadataTarget rawConfig = Some "" ->
  metadataTarget (_parsedConfig (constructor base rawConfig)) = "javascript"
  /\ snd (generate (constructor base rawConfig))
     = Return (generateJavaScriptMetaData (fst (generate (constructor base rawConfig))))
  /\ forall message, snd (generate (constructor base rawConfig)) <> Throw message.
Proof.
  intros H.
  assert (E : metadataTarget (_parsedConfig (constructor base rawConfig)) = "javascript").
  { unfold constructor. simpl. destruct H as [-> | ->]; reflexivity. }
  split; [exact E|].
  unfold generate. simpl in *. rewrite E. simpl. split; [reflexivity|].
  intros message Hm. discriminate.
Qed.

End Properties.

(** ** Serialization followed by parsing *)

Lemma append_assoc (a b c : string) : (a ++ b) ++ c = a ++ (b ++ c).
Proof. induction a as [|x a IH]; simpl; congruence. Qed.

Lemma append_empty (a : string) : a ++ "" = a.
Proof. induction a as [|x a IH]; simpl; congruence. Qed.

Lemma length_append (a b : string) :
  String.length (a ++ b) = String.length a + String.length b.
Proof. induction a as [|x a IH]; simpl; congruence. Qed.

(** *** White space *)

Lemma isSpaces_append a b : isSpaces a = true -> isSpaces b = true -> isSpaces (a ++ b) = true.
Proof.
  induction a as [|x a IH]; simpl; auto.
  intros H Hb. apply andb_true_iff in H. destruct H as [Hx Ha].
  rewrite Hx. simpl. auto.
Qed.

Lemma skipWhitespace_spaces ws s :
  isSpaces ws = true -> skipWhitespace (ws ++ s) = skipWhitespace s.
Proof.
  induction ws as [|x ws IH]; simpl; auto.
  intros H. apply andb_true_iff in H. destruct H as [Hx Hws].
  apply Ascii.eqb_eq in Hx. subst x. simpl. auto.
Qed.

Lemma skipWhitespace_startsValue s rest :
  startsValue s = true -> skipWhitespace (s ++ rest) = s ++ rest.
Proof.
  destruct s as [|c s]; simpl; [discriminate|].
  intros H. destruct (isWhitespace c); [discriminate|reflexivity].
Qed.

(** *** Strings *)

Lemma parseString_quoteUnit c t :
  parseString (quoteUnit c ++ t) = prepend c (parseString t).
Proof.
  destruct c as [[] [] [] [] [] [] [] []]; reflexivity.
Qed.

Lemma parseString_quoteUnits s rest :
  parseString (quoteUnits s ++ dq ++ rest) = Some (s, rest).
Proof.
  induction s as [|c s IH].
  - reflexivity.
  - cbn [quoteUnits]. rewrite append_assoc, parseString_quoteUnit, IH. reflexivity.
Qed.

Lemma QuoteJSONString_append s rest :
  QuoteJSONString s ++ rest = String "034"%char (quoteUnits s ++ dq ++ rest).
Proof.
  unfold QuoteJSONString. simpl. now rewrite append_assoc.
Qed.

(** *** Numbers *)

Lemma delimited_no_digit rest :
  delimited rest = true -> parseDigits rest = (Decimal.Nil, rest) /\ continuesNumber rest = false.
Proof.
  destruct rest as [|c rest]; simpl; auto.
  intros H. apply orb_true_iff in H.
  destruct H as [H|H]; apply Nat.eqb_eq in H;
    unfold digitOf; rewrite H; simpl; auto.
Qed.

Lemma parseDigits_string_of_uint u rest :
  parseDigits rest = (Decimal.Nil, rest) ->
  parseDigits (NilEmpty.string_of_uint u ++ rest) = (u, rest).
Proof.
  intros Hrest. induction u; simpl; try rewrite IHu; auto.
Qed.

Lemma uint_beq_refl u : Decimal.uint_beq u u = true.
Proof. induction u; simpl; auto. Qed.

Lemma unorm_to_uint p : Decimal.unorm (Pos.to_uint p) = Pos.to_uint p.
Proof.
  rewrite <- (DecimalPos.Unsigned.to_of (Pos.to_uint p)).
  rewrite DecimalPos.Unsigned.of_to. reflexivity.
Qed.

Lemma string_of_uint_start u :
  u <> Decimal.Nil ->
  exists c s, NilEmpty.string_of_uint u = String c s /\ isDigit c = true.
Proof.
  destruct u; try congruence; intros _; simpl; eexists _, _; split; reflexivity.
Qed.

Lemma isDigit_not_minus c : isDigit c = true -> Nat.eqb (nat_of_ascii c) 45 = false.
Proof.
  destruct c as [[] [] [] [] [] [] [] []]; try discriminate; reflexivity.
Qed.

Lemma parseNumber_pos p rest :
  delimited rest = true ->
  parseNumber (NilEmpty.string_of_uint (Pos.to_uint p) ++ rest)
  = if isSafeInteger (Z.pos p) then Some (JSNumber (Z.pos p), rest) else None.
Proof.
  intros Hrest. destruct (delimited_no_digit rest Hrest) as [Hd Hc].
  destruct (string_of_uint_start (Pos.to_uint p) (DecimalPos.Unsigned.to_uint_nonnil p))
    as [c [s [Hs Hdigit]]].
  unfold parseNumber.
  assert (E : (match NilEmpty.string_of_uint (Pos.to_uint p) ++ rest with
               | String c s' =>
                   if Nat.eqb (nat_of_ascii c) 45
                   then (true, s')
                   else (false, NilEmpty.string_of_uint (Pos.to_uint p) ++ rest)
               | EmptyString => (false, NilEmpty.string_of_uint (Pos.to_uint p) ++ rest)
               end) = (false, NilEmpty.string_of_uint (Pos.to_uint p) ++ rest)).
  { rewrite Hs. simpl. now rewrite (isDigit_not_minus c Hdigit). }
  rewrite E. rewrite (parseDigits_string_of_uint _ _ Hd).
  rewrite unorm_to_uint, uint_beq_refl, Hc. simpl.
  unfold Z.of_uint. rewrite DecimalPos.Unsigned.of_to. reflexivity.
Qed.

Lemma parseNumber_NumberToString z rest :
  isSafeInteger z = true -> delimited rest = true ->
  parseNumber (NumberToString z ++ rest) = Some (JSNumber z, rest).
Proof.
  intros Hsafe Hrest. destruct (delimited_no_digit rest Hrest) as [Hd Hc].
  destruct z as [|p|p]; unfold NumberToString; simpl Z.to_int.
  - unfold parseNumber. simpl. rewrite Hd, Hc. reflexivity.
  - unfold NilZero.string_of_int, NilZero.string_of_uint.
    destruct (Pos.to_uint p) eqn:E;
      try (exfalso; exact (DecimalPos.Unsigned.to_uint_nonnil p E));
      rewrite <- E; rewrite parseNumber_pos by assumption; now rewrite Hsafe.
  - unfold NilZero.string_of_int, NilZero.string_of_uint.
    assert (E : (match Pos.to_uint p with
                 | Decimal.Nil => "0"
                 | _ => NilEmpty.string_of_uint (Pos.to_uint p)
                 end) = NilEmpty.string_of_uint (Pos.to_uint p)).
    { destruct (Pos.to_uint p) eqn:E'; try reflexivity.
      exfalso. exact (DecimalPos.Unsigned.to_uint_nonnil p E'). }
    rewrite E. unfold parseNumber. simpl.
    rewrite (parseDigits_string_of_uint _ _ Hd).
    rewrite unorm_to_uint, uint_beq_refl, Hc. simpl.
    unfold Z.of_uint. rewrite DecimalPos.Unsigned.of_to. simpl.
    now rewrite Hsafe.
Qed.

Lemma NumberToString_start z :
  exists c s, NumberToString z = String c s
              /\ (isDigit c = true \/ nat_of_ascii c = 45).
Proof.
  destruct z as [|p|p]; unfold NumberToString; simpl Z.to_int.
  - eexists _, _. split; [reflexivity|]. left. reflexivity.
  - destruct (string_of_uint_start (Pos.to_uint p) (DecimalPos.Unsigned.to_uint_nonnil p))
      as [c [s [Hs Hdigit]]].
    exists c, s. split; auto.
    unfold NilZero.string_of_int, NilZero.string_of_uint.
    destruct (Pos.to_uint p) eqn:E; auto.
    exfalso. exact (DecimalPos.Unsigned.to_uint_nonnil p E).
  - eexists _, _. split; [reflexivity|]. right. reflexivity.
Qed.

(** *** Values *)

Lemma concat_printTail close stepback indent partial : forall p rest,
  String.concat ("," ++ nl ++ indent) (p :: partial) ++ nl ++ stepback ++ close ++ rest
  = p ++ printTail close stepback indent partial rest.
Proof.
  induction partial as [|q partial IH]; intros p rest.
  - reflexivity.
  - change (String.concat ("," ++ nl ++ indent) (p :: q :: partial))
      with (p ++ ("," ++ nl ++ indent) ++ String.concat ("," ++ nl ++ indent) (q :: partial)).
    rewrite !append_assoc. rewrite IH. reflexivity.
Qed.

Lemma wrap_cons open close stepback indent p partial rest :
  wrap open close stepback indent (p :: partial) ++ rest
  = open ++ nl ++ indent ++ p ++ printTail close stepback indent partial rest.
Proof.
  unfold wrap. rewrite !append_assoc.
  rewrite concat_printTail. reflexivity.
Qed.

Lemma printTail_delimited close stepback indent partial rest :
  delimited (printTail close stepback indent partial rest) = true.
Proof. destruct partial; reflexivity. Qed.

Lemma printTail_length close stepback indent partial rest :
  length partial + fold_right (fun p n => String.length p + n) 0 partial
  <= String.length (printTail close stepback indent partial rest).
Proof.
  induction partial as [|p partial IH]; simpl; [lia|].
  rewrite !length_append. lia.
Qed.

Lemma parseValue_skip fuel s s' :
  skipWhitespace s = skipWhitespace s' -> parseValue fuel s = parseValue fuel s'.
Proof.
  intros H. destruct fuel; simpl; [reflexivity|]. now rewrite H.
Qed.

Lemma parseValue_number fuel c s :
  isDigit c = true \/ nat_of_ascii c = 45 ->
  parseValue (S fuel) (String c s) = parseNumber (String c s).
Proof.
  intros [H|H].
  - destruct c as [[] [] [] [] [] [] [] []]; try discriminate; reflexivity.
  - destruct c as [[] [] [] [] [] [] [] []]; try discriminate; reflexivity.
Qed.

Lemma roundTrips_elementText e indent :
  roundTrips e -> isJSON e = true -> isSpaces indent = true ->
  startsValue (elementText indent e) = true
  /\ size e <= String.length (elementText indent e)
  /\ forall fuel rest,
       size e <= fuel -> delimited rest = true ->
       parseValue fuel (elementText indent e ++ rest) = Some (e, rest).
Proof.
  intros H Hjson Hindent. destruct (H Hjson indent Hindent) as [str [Hstr Hrest]].
  unfold elementText. rewrite Hstr. exact Hrest.
Qed.

Lemma skipWhitespace_line indent s :
  isSpaces indent = true -> skipWhitespace (nl ++ indent ++ s) = skipWhitespace s.
Proof.
  intros H. change (nl ++ indent ++ s) with (String "010"%char (indent ++ s)).
  cbn [skipWhitespace]. change (isWhitespace "010"%char) with true. cbv iota.
  now apply skipWhitespace_spaces.
Qed.

Lemma parseElements_eq fuel s acc :
  parseElements (S fuel) s acc
  = match parseValue fuel s with
    | Some (v, rest) =>
        match skipWhitespace rest with
        | String c rest' =>
            let n := nat_of_ascii c in
            if Nat.eqb n 44 then parseElements fuel rest' (List.app acc [v])
            else if Nat.eqb n 93 then Some (JSArray (List.app acc [v]), rest')
            else None
        | EmptyString => None
        end
    | None => None
    end.
Proof. reflexivity. Qed.

Lemma parseMembers_eq fuel s acc :
  parseMembers (S fuel) s acc
  = match skipWhitespace s with
    | String q afterQuote =>
        if negb (Nat.eqb (nat_of_ascii q) 34) then None
        else
          match parseString afterQuote with
          | Some (k, afterKey) =>
              match skipWhitespace afterKey with
              | String colon afterColon =>
                  if negb (Nat.eqb (nat_of_ascii colon) 58) then None
                  else
                    match parseValue fuel afterColon with
                    | Some (v, rest) =>
                        match skipWhitespace rest with
                        | String c rest' =>
                            let n := nat_of_ascii c in
                            if Nat.eqb n 44 then parseMembers fuel rest' (Obj.set acc k v)
                            else if Nat.eqb n 125 then
                              Some (JSObject (Obj.set acc k v), rest')
                            else None
                        | EmptyString => None
                        end
                    | None => None
                    end
              | EmptyString => None
              end
          | None => None
          end
    | EmptyString => None
    end.
Proof. reflexivity. Qed.

Lemma parseValue_array fuel r :
  parseValue (S fuel) (String "["%char r)
  = match skipWhitespace r with
    | String c' rest' =>
        if Nat.eqb (nat_of_ascii c') 93 then Some (JSArray [], rest')
        else parseElements fuel r []
    | EmptyString => None
    end.
Proof. reflexivity. Qed.

Lemma parseValue_object fuel r :
  parseValue (S fuel) (String "{"%char r)
  = match skipWhitespace r with
    | String c' rest' =>
        if Nat.eqb (nat_of_ascii c') 125 then Some (JSObject [], rest')
        else parseMembers fuel r []
    | EmptyString => None
    end.
Proof. reflexivity. Qed.

Lemma startsValue_not_bracket {T} s rest (a : string -> T) (b d : T) :
  startsValue s = true ->
  match s ++ rest with
  | String c' rest' => if Nat.eqb (nat_of_ascii c') 93 then a rest' else b
  | EmptyString => d
  end = b.
Proof.
  destruct s as [|c s]; simpl; [discriminate|].
  intros H. apply andb_true_iff in H. destruct H as [H _].
  apply andb_true_iff in H. destruct H as [_ H93].
  apply negb_true_iff in H93. now rewrite H93.
Qed.

Lemma memberText_not_brace {T} indent p rest (a : string -> T) (b d : T) :
  match skipWhitespace (memberText indent p ++ rest) with
  | String c' rest' => if Nat.eqb (nat_of_ascii c') 125 then a rest' else b
  | EmptyString => d
  end = b.
Proof.
  unfold memberText. rewrite append_assoc, QuoteJSONString_append. reflexivity.
Qed.

Section Items.

Variables indent stepback : string.
Hypothesis indent_spaces : isSpaces indent = true.
Hypothesis stepback_spaces : isSpaces stepback = true.

Lemma skipWhitespace_closing close rest :
  skipWhitespace (nl ++ stepback ++ close ++ rest) = skipWhitespace (close ++ rest).
Proof. now apply skipWhitespace_line. Qed.

Lemma parseElements_items l :
  Forall roundTrips l -> forallb isJSON l = true ->
  forall e, roundTrips e -> isJSON e = true ->
  forall acc fuel rest,
    S (size e + sizes l) <= fuel ->
    parseElements fuel
      (nl ++ indent ++ elementText indent e
          ++ printTail "]" stepback indent (map (elementText indent) l) rest) acc
    = Some (JSArray (List.app acc (e :: l)), rest).
Proof.
  induction l as [|e' l IH]; intros HP Hjson e He Hej acc fuel rest Hfuel;
    unfold sizes in Hfuel; cbn [fold_right] in Hfuel;
    (destruct fuel as [|fuel]; [lia|]);
    destruct (roundTrips_elementText e indent He Hej indent_spaces) as [Hstart [_ Hparse]];
    rewrite parseElements_eq;
    rewrite (parseValue_skip fuel _ (elementText indent e
               ++ printTail "]" stepback indent (map (elementText indent) (_ : list JSValue)) rest))
      by (rewrite skipWhitespace_line by assumption; reflexivity).
  - rewrite Hparse; [|lia|reflexivity].
    cbn [map printTail]. rewrite skipWhitespace_closing. reflexivity.
  - rewrite Hparse; [|lia|reflexivity].
    cbn [map printTail].
    change ("," ++ nl ++ indent ++ elementText indent e'
              ++ printTail "]" stepback indent (map (elementText indent) l) rest)
      with (String ","%char (nl ++ indent ++ elementText indent e'
              ++ printTail "]" stepback indent (map (elementText indent) l) rest)).
    cbn [skipWhitespace]. change (isWhitespace ","%char) with false. cbv iota.
    change (Nat.eqb (nat_of_ascii ","%char) 44) with true. cbv iota zeta.
    inversion HP as [|? ? He' HP']. subst.
    simpl in Hjson. apply andb_true_iff in Hjson. destruct Hjson as [He'j Hlj].
    rewrite (IH HP' Hlj e' He' He'j).
    + rewrite <- app_assoc. reflexivity.
    + unfold sizes. cbn [fold_right]. lia.
Qed.

Lemma parseMembers_items l :
  Forall (fun p => roundTrips (snd p)) l ->
  forallb (fun p => isJSON (snd p)) l = true ->
  forall p, roundTrips (snd p) -> isJSON (snd p) = true ->
  forall acc fuel rest,
    S (size (snd p) + memberSizes l) <= fuel ->
    parseMembers fuel
      (nl ++ indent ++ memberText indent p
          ++ printTail "}" stepback indent (map (memberText indent) l) rest) acc
    = Some (JSObject (assign (p :: l) acc), rest).
Proof.
  induction l as [|p' l IH]; intros HP Hjson p Hp Hpj acc fuel rest Hfuel;
    unfold memberSizes in Hfuel; cbn [fold_right] in Hfuel;
    (destruct fuel as [|fuel]; [lia|]);
    destruct (roundTrips_elementText (snd p) indent Hp Hpj indent_spaces)
      as [Hstart [_ Hparse]];
    rewrite parseMembers_eq;
    rewrite skipWhitespace_line by assumption;
    unfold memberText at 1; rewrite !append_assoc, QuoteJSONString_append;
    cbn [skipWhitespace]; change (isWhitespace "034"%char) with false; cbv iota;
    change (negb (Nat.eqb (nat_of_ascii "034"%char) 34)) with false; cbv iota;
    rewrite parseString_quoteUnits;
    match goal with
    | |- context [skipWhitespace (": " ++ ?t)] =>
        change (skipWhitespace (": " ++ t)) with (String ":"%char (String " "%char t))
    end;
    change (negb (Nat.eqb (nat_of_ascii ":"%char) 58)) with false; cbv iota;
    match goal with
    | |- context [parseValue fuel (String " "%char ?t)] =>
        rewrite (parseValue_skip fuel (String " "%char t) t) by reflexivity
    end.
  - rewrite Hparse; [|lia|reflexivity].
    cbn [map printTail]. rewrite skipWhitespace_closing. reflexivity.
  - rewrite Hparse; [|lia|reflexivity].
    cbn [map printTail].
    change ("," ++ nl ++ indent ++ memberText indent p'
              ++ printTail "}" stepback indent (map (memberText indent) l) rest)
      with (String ","%char (nl ++ indent ++ memberText indent p'
              ++ printTail "}" stepback indent (map (memberText indent) l) rest)).
    cbn [skipWhitespace]. change (isWhitespace ","%char) with false. cbv iota.
    change (Nat.eqb (nat_of_ascii ","%char) 44) with true. cbv iota zeta.
    inversion HP as [|? ? Hp' HP']. subst.
    simpl in Hjson. apply andb_true_iff in Hjson. destruct Hjson as [Hp'j Hlj].
    rewrite (IH HP' Hlj p' Hp' Hp'j).
    + reflexivity.
    + unfold memberSizes. cbn [fold_right]. lia.
Qed.

End Items.

Lemma set_fresh {A} (o : JSRecord A) k v :
  existsb (String.eqb k) (map fst o) = false -> Obj.set o k v = List.app o [(k, v)].
Proof.
  induction o as [|[k' v'] o IH]; simpl; auto.
  intros H. apply orb_false_iff in H. destruct H as [Hk Ho].
  rewrite Hk, IH by assumption. reflexivity.
Qed.

Lemma distinct_middle (before after : list string) k :
  distinct (List.app before (k :: after)) = true ->
  existsb (String.eqb k) before = false.
Proof.
  induction before as [|x before IH]; simpl; auto.
  intros H. apply andb_true_iff in H. destruct H as [Hx H].
  rewrite (IH H), orb_false_r.
  apply negb_true_iff in Hx. rewrite existsb_app in Hx.
  apply orb_false_iff in Hx. destruct Hx as [_ Hx]. simpl in Hx.
  apply orb_false_iff in Hx. destruct Hx as [Hx _].
  now rewrite String.eqb_sym.
Qed.

Lemma assign_distinct l : forall acc,
  distinct (map fst (List.app acc l)) = true -> assign l acc = List.app acc l.
Proof.
  induction l as [|[k v] l IH]; intros acc H.
  - now rewrite app_nil_r.
  - unfold assign in *. cbn [fold_left fst snd].
    rewrite set_fresh.
    + rewrite IH; rewrite <- app_assoc; [reflexivity|exact H].
    + rewrite map_app in H. cbn [map fst] in H. exact (distinct_middle _ _ _ H).
Qed.

Lemma isJSON_serializes v indent :
  isJSON v = true -> exists str, SerializeJSONProperty indent v = Some str.
Proof.
  destruct v; simpl; try discriminate; intros _; eexists; reflexivity.
Qed.

Lemma flat_map_members indent properties :
  forallb (fun p => isJSON (snd p)) properties = true ->
  flat_map (fun p => match SerializeJSONProperty indent (snd p) with
                     | Some str => [QuoteJSONString (fst p) ++ ": " ++ str]
                     | None => []
                     end) properties
  = map (memberText indent) properties.
Proof.
  induction properties as [|p l IH]; cbn [flat_map map forallb]; auto.
  intros H. apply andb_true_iff in H. destruct H as [Hp Hl].
  rewrite (IH Hl). unfold memberText at 2, elementText.
  destruct (isJSON_serializes (snd p) indent Hp) as [str ->]. reflexivity.
Qed.

Lemma sizes_elementText indent l :
  isSpaces indent = true -> Forall roundTrips l -> forallb isJSON l = true ->
  sizes l <= textLengths (map (elementText indent) l).
Proof.
  intros Hindent HP. unfold sizes, textLengths.
  induction HP as [|e l He HP IH]; simpl; [lia|].
  intros H. apply andb_true_iff in H. destruct H as [Hej Hl].
  destruct (roundTrips_elementText e indent He Hej Hindent) as [_ [Hsize _]].
  specialize (IH Hl). lia.
Qed.

Lemma memberText_length indent p :
  String.length (elementText indent (snd p)) + 4 <= String.length (memberText indent p).
Proof.
  unfold memberText, QuoteJSONString. rewrite !length_append.
  cbn [String.length dq]. lia.
Qed.

Lemma memberSizes_memberText indent l :
  isSpaces indent = true ->
  Forall (fun p => roundTrips (snd p)) l ->
  forallb (fun p => isJSON (snd p)) l = true ->
  memberSizes l <= textLengths (map (memberText indent) l).
Proof.
  intros Hindent HP. unfold memberSizes, textLengths.
  induction HP as [|p l Hp HP IH]; cbn [fold_right map length forallb]; [lia|].
  intros H. apply andb_true_iff in H. destruct H as [Hpj Hl].
  destruct (roundTrips_elementText (snd p) indent Hp Hpj Hindent) as [_ [Hsize _]].
  specialize (IH Hl). pose proof (memberText_length indent p). lia.
Qed.

Lemma parseValue_string fuel r :
  parseValue (S fuel) (String "034"%char r)
  = match parseString r with
    | Some (str, rest') => Some (JSString str, rest')
    | None => None
    end.
Proof. reflexivity. Qed.

Lemma numberStart_startsValue c s :
  isDigit c = true \/ nat_of_ascii c = 45 -> startsValue (String c s) = true.
Proof.
  intros [H|H]; destruct c as [[] [] [] [] [] [] [] []]; try discriminate; reflexivity.
Qed.

Lemma isSpaces_gap indent : isSpaces indent = true -> isSpaces (indent ++ gap) = true.
Proof. intros H. now apply isSpaces_append. Qed.

(** Every value of JSON is read back from its text. *)
Theorem JSON_roundTrips v : roundTrips v.
Proof.
  induction v using JSValue_ind; unfold roundTrips; intros Hjson indent Hindent.
  - discriminate.
  - exists "null". repeat split; simpl; try lia.
    intros fuel rest Hfuel _. destruct fuel; [lia|reflexivity].
  - exists (if b then "true" else "false"). split; [reflexivity|].
    destruct b; repeat split; simpl; try lia;
      intros fuel rest Hfuel _; (destruct fuel; [lia|reflexivity]).
  - exists (NumberToString z). split; [reflexivity|].
    destruct (NumberToString_start z) as [c [s [Hs Hc]]].
    split; [|split].
    + rewrite Hs. now apply numberStart_startsValue.
    + rewrite Hs. simpl. lia.
    + intros fuel rest Hfuel Hrest. destruct fuel; [simpl in Hfuel; lia|].
      rewrite Hs. change (String c s ++ rest) with (String c (s ++ rest)).
      rewrite parseValue_number by assumption.
      change (String c (s ++ rest)) with (String c s ++ rest). rewrite <- Hs.
      now apply parseNumber_NumberToString.
  - exists (QuoteJSONString s). split; [reflexivity|]. split; [reflexivity|]. split.
    + unfold QuoteJSONString. simpl. lia.
    + intros fuel rest Hfuel _. destruct fuel; [simpl in Hfuel; lia|].
      rewrite QuoteJSONString_append, parseValue_string, parseString_quoteUnits.
      reflexivity.
  - exists (wrap "[" "]" indent (indent ++ gap) (map (elementText (indent ++ gap)) elements)).
    split; [reflexivity|].
    cbn [isJSON] in Hjson.
    destruct elements as [|e l].
    + repeat split; simpl; try lia.
      intros fuel rest Hfuel _. destruct fuel; [lia|reflexivity].
    + inversion H as [|? ? He Hl]. subst.
      cbn [forallb] in Hjson. apply andb_true_iff in Hjson. destruct Hjson as [Hej Hlj].
      pose proof (isSpaces_gap indent Hindent) as Hgap.
      destruct (roundTrips_elementText e (indent ++ gap) He Hej Hgap)
        as [Hstart [Hsize Hparse]].
      split; [reflexivity|]. split.
      * rewrite <- (append_empty (wrap _ _ _ _ _)). cbn [map]. rewrite wrap_cons.
        change ("[" ++ ?x) with (String "["%char x).
        pose proof (printTail_length "]" indent (indent ++ gap)
                      (map (elementText (indent ++ gap)) l) "") as Htail.
        pose proof (sizes_elementText (indent ++ gap) l Hgap Hl Hlj) as Hsizes.
        unfold textLengths in Hsizes. fold (sizes (e :: l)).
        cbn [size]. fold (sizes (e :: l)). unfold sizes at 1. cbn [fold_right].
        fold (sizes l).
        cbn [String.length]. rewrite !length_append.
        change (String.length nl) with 1. lia.
      * intros fuel rest Hfuel Hrest. destruct fuel; [simpl in Hfuel; lia|].
        cbn [map]. rewrite wrap_cons.
        change ("[" ++ ?x) with (String "["%char x).
        rewrite parseValue_array.
        rewrite skipWhitespace_line by assumption.
        rewrite skipWhitespace_startsValue by assumption.
        rewrite startsValue_not_bracket by assumption.
        apply (parseElements_items (indent ++ gap) indent Hgap Hindent l Hl Hlj e He Hej
                 [] fuel rest).
        cbn [size] in Hfuel. fold (sizes (e :: l)) in Hfuel.
        unfold sizes in Hfuel. cbn [fold_right] in Hfuel. unfold sizes. lia.
  - cbn [isJSON] in Hjson. apply andb_true_iff in Hjson. destruct Hjson as [Hkeys Hjson].
    exists (wrap "{" "}" indent (indent ++ gap) (map (memberText (indent ++ gap)) properties)).
    split.
    { cbn [SerializeJSONProperty]. rewrite flat_map_members by assumption. reflexivity. }
    destruct properties as [|p l].
    + repeat split; simpl; try lia.
      intros fuel rest Hfuel _. destruct fuel; [lia|reflexivity].
    + inversion H as [|? ? Hp Hl]. subst.
      cbn [forallb] in Hjson. apply andb_true_iff in Hjson. destruct Hjson as [Hpj Hlj].
      pose proof (isSpaces_gap indent Hindent) as Hgap.
      destruct (roundTrips_elementText (snd p) (indent ++ gap) Hp Hpj Hgap)
        as [Hstart [Hsize Hparse]].
      split; [reflexivity|]. split.
      * rewrite <- (append_empty (wrap _ _ _ _ _)). cbn [map]. rewrite wrap_cons.
        change ("{" ++ ?x) with (String "{"%char x).
        pose proof (printTail_length "}" indent (indent ++ gap)
                      (map (memberText (indent ++ gap)) l) "") as Htail.
        pose proof (memberSizes_memberText (indent ++ gap) l Hgap Hl Hlj) as Hsizes.
        unfold textLengths in Hsizes.
        cbn [size]. fold (memberSizes (p :: l)). unfold memberSizes at 1. cbn [fold_right].
        fold (memberSizes l).
        pose proof (memberText_length (indent ++ gap) p).
        cbn [String.length]. rewrite !length_append.
        change (String.length nl) with 1. lia.
      * intros fuel rest Hfuel Hrest. destruct fuel; [simpl in Hfuel; lia|].
        cbn [map]. rewrite wrap_cons.
        change ("{" ++ ?x) with (String "{"%char x).
        rewrite parseValue_object.
        rewrite skipWhitespace_line by assumption.
        rewrite memberText_not_brace.
        rewrite (parseMembers_items (indent ++ gap) indent Hgap Hindent l Hl Hlj p Hp Hpj
                   [] fuel rest).
        -- rewrite (assign_distinct (p :: l) []) by exact Hkeys. reflexivity.
        -- cbn [size] in Hfuel. fold (memberSizes (p :: l)) in Hfuel.
           unfold memberSizes in Hfuel. cbn [fold_right] in Hfuel. unfold memberSizes. lia.
  - discriminate.
Qed.

(** [JSON.parse(JSON.stringify(v, null, 4))] is [v] for every value of JSON. *)
Theorem JSON_parse_stringify v :
  isJSON v = true ->
  exists text, JSON_stringify v = Some text /\ JSON_parse text = Some v.
Proof.
  intros Hjson.
  destruct (JSON_roundTrips v Hjson "" eq_refl) as [text [Htext [_ [Hsize Hparse]]]].
  exists text. split; [exact Htext|].
  unfold JSON_parse.
  rewrite <- (append_empty text) at 2.
  rewrite Hparse; [reflexivity|lia|reflexivity].
Qed.

Lemma distinct_set {A} (o : JSRecord A) k v :
  distinct (map fst o) = true -> distinct (map fst (Obj.set o k v)) = true.
Proof.
  induction o as [|[k' v'] o IH]; simpl; auto.
  intros H. apply andb_true_iff in H. destruct H as [Hk' Ho].
  destruct (String.eqb_spec k k') as [->|Hne]; simpl.
  - now rewrite Hk', Ho.
  - rewrite (IH Ho), andb_true_r.
    apply negb_true_iff. apply negb_true_iff in Hk'.
    clear IH Ho. induction o as [|[k0 v0] o IH]; simpl in *.
    + rewrite orb_false_r. apply String.eqb_neq. congruence.
    + apply orb_false_iff in Hk'. destruct Hk' as [Hk0 Hk'].
      destruct (String.eqb k k0); simpl; rewrite Hk0; simpl; auto.
Qed.

Lemma forallb_set {A} (ok : A -> bool) (o : JSRecord A) k v :
  forallb (fun p => ok (snd p)) o = true -> ok v = true ->
  forallb (fun p => ok (snd p)) (Obj.set o k v) = true.
Proof.
  intros Ho Hv. induction o as [|[k' v'] o IH]; simpl in *.
  - now rewrite Hv.
  - apply andb_true_iff in Ho. destruct Ho as [Hv' Ho].
    destruct (String.eqb k k'); simpl.
    + now rewrite Hv, Ho.
    + now rewrite Hv', IH.
Qed.

(** *** What the parser returns *)

Lemma parseValue_eq fuel s :
  parseValue (S fuel) s
  = match skipWhitespace s with
    | EmptyString => None
    | String c rest =>
        let n := nat_of_ascii c in
        if Nat.eqb n 123 then
          match skipWhitespace rest with
          | String c' rest' =>
              if Nat.eqb (nat_of_ascii c') 125 then Some (JSObject [], rest')
              else parseMembers fuel rest []
          | EmptyString => None
          end
        else if Nat.eqb n 91 then
          match skipWhitespace rest with
          | String c' rest' =>
              if Nat.eqb (nat_of_ascii c') 93 then Some (JSArray [], rest')
              else parseElements fuel rest []
          | EmptyString => None
          end
        else if Nat.eqb n 34 then
          match parseString rest with
          | Some (str, rest') => Some (JSString str, rest')
          | None => None
          end
        else parseLiteral (String c rest)
    end.
Proof. reflexivity. Qed.

Lemma parseNumber_isJSON s v rest : parseNumber s = Some (v, rest) -> isJSON v = true.
Proof.
  unfold parseNumber.
  destruct (match s with
            | String c s' => if Nat.eqb (nat_of_ascii c) 45 then (true, s') else (false, s)
            | EmptyString => (false, s)
            end) as [negative s'].
  destruct (parseDigits s') as [u rest'].
  destruct (negb (Decimal.uint_beq (Decimal.unorm u) u)); [discriminate|].
  destruct (continuesNumber rest'); [discriminate|].
  destruct (negative && Z.eqb (Z.of_uint u) 0); [discriminate|].
  destruct (isSafeInteger (if negative then Z.opp (Z.of_uint u) else Z.of_uint u)) eqn:E;
    [|discriminate].
  intros H. inversion H. subst. exact E.
Qed.

Lemma parseLiteral_isJSON s v rest : parseLiteral s = Some (v, rest) -> isJSON v = true.
Proof.
  unfold parseLiteral. intros H.
  repeat match type of H with
         | match ?x with _ => _ end = _ => destruct x
         end;
    try (inversion H; reflexivity);
    try (apply parseNumber_isJSON in H; exact H).
Qed.

Lemma forallb_snoc {A} (f : A -> bool) l x :
  forallb f l = true -> f x = true -> forallb f (List.app l [x]) = true.
Proof.
  intros Hl Hx. rewrite forallb_app, Hl. simpl. now rewrite Hx.
Qed.

Lemma parse_isJSON fuel :
  (forall s v rest, parseValue fuel s = Some (v, rest) -> isJSON v = true)
  /\ (forall s acc v rest,
         forallb isJSON acc = true ->
         parseElements fuel s acc = Some (v, rest) -> isJSON v = true)
  /\ (forall s acc v rest,
         isJSON (JSObject acc) = true ->
         parseMembers fuel s acc = Some (v, rest) -> isJSON v = true).
Proof.
  induction fuel as [|fuel [IHv [IHe IHm]]].
  - repeat split; intros; discriminate.
  - split; [|split].
    + intros s v rest. rewrite parseValue_eq.
      destruct (skipWhitespace s) as [|c r]; [discriminate|]. cbv zeta.
      destruct (Nat.eqb (nat_of_ascii c) 123).
      { destruct (skipWhitespace r) as [|c' r']; [discriminate|].
        destruct (Nat.eqb (nat_of_ascii c') 125).
        - intros H. inversion H. reflexivity.
        - apply IHm. reflexivity. }
      destruct (Nat.eqb (nat_of_ascii c) 91).
      { destruct (skipWhitespace r) as [|c' r']; [discriminate|].
        destruct (Nat.eqb (nat_of_ascii c') 93).
        - intros H. inversion H. reflexivity.
        - apply IHe. reflexivity. }
      destruct (Nat.eqb (nat_of_ascii c) 34).
      { destruct (parseString r) as [[str r']|]; [|discriminate].
        intros H. inversion H. reflexivity. }
      apply parseLiteral_isJSON.
    + intros s acc v rest Hacc. rewrite parseElements_eq.
      destruct (parseValue fuel s) as [[e r]|] eqn:He; [|discriminate].
      apply IHv in He.
      destruct (skipWhitespace r) as [|c r']; [discriminate|]. cbv zeta.
      destruct (Nat.eqb (nat_of_ascii c) 44).
      { apply IHe. now apply forallb_snoc. }
      destruct (Nat.eqb (nat_of_ascii c) 93); [|discriminate].
      intros H. inversion H. cbn [isJSON]. now apply forallb_snoc.
    + intros s acc v rest Hacc. rewrite parseMembers_eq.
      destruct (skipWhitespace s) as [|q r]; [discriminate|].
      destruct (negb (Nat.eqb (nat_of_ascii q) 34)); [discriminate|].
      destruct (parseString r) as [[k afterKey]|]; [|discriminate].
      destruct (skipWhitespace afterKey) as [|colon afterColon]; [discriminate|].
      destruct (negb (Nat.eqb (nat_of_ascii colon) 58)); [discriminate|].
      destruct (parseValue fuel afterColon) as [[e r']|] eqn:He; [|discriminate].
      apply IHv in He.
      assert (Hset : isJSON (JSObject (Obj.set acc k e)) = true).
      { cbn [isJSON] in *. apply andb_true_iff in Hacc. destruct Hacc as [Hkeys Hvals].
        rewrite distinct_set, forallb_set; auto. }
      destruct (skipWhitespace r') as [|c r'']; [discriminate|]. cbv zeta.
      destruct (Nat.eqb (nat_of_ascii c) 44).
      { now apply IHm. }
      destruct (Nat.eqb (nat_of_ascii c) 125); [|discriminate].
      intros H. inversion H. exact Hset.
Qed.

(** Whatever [JSON.parse] returns is a value of JSON. *)
Theorem JSON_parse_isJSON text v : JSON_parse text = Some v -> isJSON v = true.
Proof.
  unfold JSON_parse.
  destruct (parseValue (S (String.length text)) text) as [[v' rest]|] eqn:E; [|discriminate].
  destruct (skipWhitespace rest); [|discriminate].
  intros H. inversion H. subst.
  exact (proj1 (parse_isJSON _) _ _ _ E).
Qed.

(** *** The document of the visitor *)

Lemma isJSON_assignAll {A} (key : A -> string) (val : A -> JSValue) l :
  (forall x, In x l -> isJSON (val x) = true) ->
  isJSON (JSObject (assignAll key val l [])) = true.
Proof.
  intros Hl.
  assert (G : forall acc,
             isJSON (JSObject acc) = true -> isJSON (JSObject (assignAll key val l acc)) = true).
  { induction l as [|x l IH]; intros acc Hacc; [exact Hacc|].
    unfold assignAll in *. cbn [fold_left]. apply IH.
    - intros y Hy. apply Hl. now right.
    - cbn [isJSON] in *. apply andb_true_iff in Hacc. destruct Hacc as [Hkeys Hvals].
      rewrite distinct_set, forallb_set; auto. apply Hl. now left. }
  now apply G.
Qed.

Section Document.

Context {collaborators : Collaborators}.

Lemma getType_isJSON this gqlType :
  Obj.inherited gqlType = None -> isJSON (getType this gqlType) = true.
Proof.
  intros Hinh. unfold getType, Obj.has, Obj.member, enumMapName. rewrite Hinh.
  rewrite !orb_false_r. unfold Obj.hasOwnProperty.
  destruct (Obj.get JSONGraphQLScalarType gqlType) as [tag|] eqn:Htag.
  - simpl in Htag.
    repeat match type of Htag with
           | (if ?b then _ else _) = _ => destruct b; [now inversion Htag|]
           end.
    discriminate.
  - destruct (Obj.get (enumMap this) gqlType); reflexivity.
Qed.

Lemma modelEntry_isJSON this obj : plainModel obj -> isJSON (modelEntry this obj) = true.
Proof.
  intros [Hfields Hdirectives]. unfold modelEntry.
  assert (Ha : forallb isJSON (generateModelAttributes obj) = true).
  { unfold generateModelAttributes. apply forallb_forall. intros a Ha.
    apply in_map_iff in Ha. destruct Ha as [d [<- Hd]].
    simpl. now rewrite (Hdirectives d Hd). }
  assert (Hf : isJSON (JSObject (fieldEntries this (Model.fields obj))) = true).
  { rewrite fieldEntries_assignAll. apply isJSON_assignAll. intros field Hfield.
    unfold fieldEntry. cbn [isJSON map fst snd forallb distinct existsb].
    rewrite (getType_isJSON this _ (Hfields field Hfield)).
    unfold generateFieldAttributes.
    destruct (Field.connectionInfo field) as [[f|t|f]|]; reflexivity. }
  cbn [isJSON] in *. cbn [map fst snd forallb isJSON]. rewrite Ha, Hf. reflexivity.
Qed.

(** The document is a value of JSON when the selected models are plain. *)
Lemma generateMetaData_isJSON this :
  (forall key obj, In (key, obj) (getSelectedModels this) -> plainModel obj) ->
  isJSON (generateMetaData this) = true.
Proof.
  intros Hplain. unfold generateMetaData.
  assert (Hm : isJSON (JSObject (generateModels this)) = true).
  { rewrite generateModels_assignAll. apply isJSON_assignAll.
    intros [key obj] Hin. apply modelEntry_isJSON. exact (Hplain key obj Hin). }
  assert (He : isJSON (JSObject (generateEnums this)) = true).
  { rewrite generateEnums_assignAll. apply isJSON_assignAll.
    intros [name enumObj] _. unfold enumEntry. cbn [isJSON map fst snd forallb distinct existsb].
    rewrite (proj2 (forallb_forall isJSON _)); [reflexivity|].
    intros v Hv. apply in_map_iff in Hv. destruct Hv as [s [<- _]]. reflexivity. }
  cbn [isJSON] in *. cbn [map fst snd forallb isJSON]. rewrite Hm, He. reflexivity.
Qed.

(** X16: when no field of a selected model has a raw type inherited from
    [Object.prototype] and the arguments of every directive of a selected
    model are values of JSON, the text that [generate()] returns for the
    target "javascript" or "typescript" is the fixed preamble of the
    target, the JSON text of the document built by [generateMetaData()]
    and a semicolon, and that JSON text parses back to exactly the
    document.  (The selected models are those of the visitor after
    [generate()] has resolved the connections.) *)
Theorem generate_embeds_parseable_document this :
  (forall key obj,
      In (key, obj) (getSelectedModels (fst (generate this))) -> plainModel obj) ->
  exists json,
    JSON_stringify (generateMetaData (fst (generate this))) = Some json
    /\ JSON_parse json = Some (generateMetaData (fst (generate this)))
    /\ (metadataTarget (_parsedConfig this) = "javascript" ->
        snd (generate this) = Return ("export const schema = " ++ json ++ ";"))
    /\ (metadataTarget (_parsedConfig this) = "typescript" ->
        snd (generate this)
        = Return ("import { Schema } from " ++ dq ++ "@aws-amplify/datastore" ++ dq ++ ";" ++ nl
                  ++ "" ++ nl
                  ++ "export const schema: Schema = " ++ json ++ ";")).
Proof.
  intros Hplain.
  destruct (JSON_parse_stringify _ (generateMetaData_isJSON _ Hplain))
    as [json [Hstringify Hparse]].
  exists json. split; [exact Hstringify|]. split; [exact Hparse|].
  assert (E : forall target,
             metadataTarget (_parsedConfig this) = target ->
             target = "javascript" \/ target = "typescript" ->
             fst (generate this)
             = {| _parsedConfig := _parsedConfig this;
                  modelMap := processConnectionDirective (modelMap this);
                  enumMap := enumMap this |}).
  { intros target Htarget Hcase. unfold generate. cbn [_parsedConfig]. rewrite Htarget.
    destruct Hcase as [-> | ->]; reflexivity. }
  split.
  - intros Htarget. rewrite (E _ Htarget (or_introl eq_refl)) in Hstringify.
    unfold generate. cbn [_parsedConfig]. rewrite Htarget. cbn [String.eqb snd].
    unfold generateJavaScriptMetaData. rewrite Hstringify. reflexivity.
  - intros Htarget. rewrite (E _ Htarget (or_intror eq_refl)) in Hstringify.
    unfold generate. cbn [_parsedConfig]. rewrite Htarget. cbn [String.eqb snd].
    unfold generateTypeScriptMetaData. rewrite Hstringify. reflexivity.
Qed.

End Document.

(** ** More on the loops of [generateMetaData] *)

Lemma get_app_absent {A} (o o' : JSRecord A) k :
  Obj.get o k = None -> Obj.get (List.app o o') k = Obj.get o' k.
Proof.
  induction o as [|[k' v'] o IH]; simpl; auto.
  destruct (String.eqb k k'); [discriminate|exact IH].
Qed.

Lemma set_absent {A} (o : JSRecord A) k v :
  Obj.get o k = None -> Obj.set o k v = List.app o [(k, v)].
Proof.
  induction o as [|[k' v'] o IH]; simpl; auto.
  destruct (String.eqb k k'); [discriminate|].
  intros H. now rewrite IH.
Qed.

(** A loop over items with pairwise different keys appends one property
    per item, in the order of the items. *)
Lemma assignAll_NoDup {A B} (key : A -> string) (val : A -> B) l :
  NoDup (map key l) ->
  forall acc,
    (forall x, In x l -> Obj.get acc (key x) = None) ->
    assignAll key val l acc = List.app acc (map (fun x => (key x, val x)) l).
Proof.
  induction l as [|x l IH]; intros Hnodup acc Hacc.
  - simpl. now rewrite app_nil_r.
  - inversion Hnodup as [|? ? Hx Hl]. subst.
    unfold assignAll in *. cbn [fold_left map].
    rewrite set_absent by (apply Hacc; now left).
    rewrite IH; [now rewrite <- app_assoc|exact Hl|].
    intros y Hy. rewrite get_app_absent by (apply Hacc; now right).
    simpl. destruct (String.eqb_spec (key y) (key x)) as [E|E]; [|reflexivity].
    exfalso. apply Hx. rewrite <- E. now apply in_map.
Qed.

Section Loops.

Context {collaborators : Collaborators}.

(** X3: the keys of the models mapping are exactly the original schema
    names of the selected models, and every entry stored there is the
    entry of a selected model with that schema name: its [targetName] is
    its key and its [syncable] flag is true. *)
Theorem models_keys_are_schema_names this k :
  ((exists entry, path (generateMetaData this) ["models"; k] = Some entry)
   <-> exists key obj, In (key, obj) (getSelectedModels this) /\ Model.name obj = k)
  /\ (forall entry,
         path (generateMetaData this) ["models"; k] = Some entry ->
         prop entry "targetName" = Some (JSString k)
         /\ prop entry "syncable" = Some (JSBool true)
         /\ exists key obj,
              In (key, obj) (getSelectedModels this)
              /\ Model.name obj = k /\ entry = modelEntry this obj).
Proof.
  rewrite path_models. split; [split|].
  - intros [entry H].
    destruct (Obj.get (generateModels this) k) as [e|] eqn:He; [|discriminate].
    apply generateModels_origin in He. destruct He as [key [obj [Hin [Hk _]]]].
    exists key, obj. auto.
  - intros [key [obj [Hin <-]]].
    destruct (assignAll_present (fun entry => Model.name (snd entry))
                (fun entry => modelEntry this (snd entry))
                (getSelectedModels this) [] (key, obj) Hin) as [e He].
    rewrite <- generateModels_assignAll in He. cbn [snd] in He.
    exists e. now rewrite He.
  - intros entry.
    destruct (Obj.get (generateModels this) k) as [e|] eqn:He; [|discriminate].
    intros H. inversion H. subst e.
    apply generateModels_origin in He. destruct He as [key [obj [Hin [Hk ->]]]].
    split; [|split].
    + simpl. now rewrite Hk.
    + reflexivity.
    + exists key, obj. auto.
Qed.

(** X4: the keys of the enums mapping are exactly the display names of
    the enums of the registry, and every entry stored there is built from
    an enum of the registry with that display name: its [name] is the
    registry key of that enum and its [values] are the values of that
    enum. *)
Theorem enums_keys_are_display_names this k :
  ((exists entry, path (generateMetaData this) ["enums"; k] = Some entry)
   <-> exists name enumObj, In (name, enumObj) (enumMap this) /\ getEnumName enumObj = k)
  /\ (forall entry,
         path (generateMetaData this) ["enums"; k] = Some entry ->
         exists name enumObj,
           In (name, enumObj) (enumMap this)
           /\ getEnumName enumObj = k
           /\ prop entry "name" = Some (JSString name)
           /\ prop entry "values"
              = Some (JSArray (map JSString (Obj.values (Enum.values enumObj))))).
Proof.
  rewrite path_enums, generateEnums_assignAll. split; [split|].
  - intros [entry H].
    destruct (Obj.get _ k) as [e|] eqn:He; [|discriminate].
    apply assignAll_origin in He.
    destruct He as [He|[[name enumObj] [Hin [Hk _]]]]; [discriminate|].
    exists name, enumObj. auto.
  - intros [name [enumObj [Hin <-]]].
    destruct (assignAll_present (fun entry => getEnumName (snd entry))
                (fun entry => enumEntry (fst entry) (snd entry))
                (enumMap this) [] (name, enumObj) Hin) as [e He].
    cbn [snd] in He. exists e. now rewrite He.
  - intros entry.
    destruct (Obj.get _ k) as [e|] eqn:He; [|discriminate].
    intros H. inversion H. subst e.
    apply assignAll_origin in He.
    destruct He as [He|[[name enumObj] [Hin [Hk ->]]]]; [discriminate|].
    exists name, enumObj. repeat split; auto.
Qed.

(** X5: when the selected models have pairwise different schema names,
    none of them an integer key or [__proto__], the models mapping holds
    one entry per selected model, in the order of the iteration, each
    under the schema name of its model. *)
Theorem models_in_iteration_order this :
  NoDup (map (fun entry => Model.name (snd entry)) (getSelectedModels this)) ->
  (forall key obj,
      In (key, obj) (getSelectedModels this) -> ordinaryKey (Model.name obj) = true) ->
  prop (generateMetaData this) "models"
  = Some (JSObject (map (fun entry => (Model.name (snd entry), modelEntry this (snd entry)))
                        (getSelectedModels this))).
Proof.
  intros Hnodup _. unfold generateMetaData. cbn [prop Obj.get String.eqb Ascii.eqb Bool.eqb].
  rewrite generateModels_assignAll.
  rewrite (assignAll_NoDup _ _ _ Hnodup []); [reflexivity|].
  intros x _. reflexivity.
Qed.

(** X6: when the enums of the registry have pairwise different display
    names, none of them an integer key or [__proto__], the enums mapping
    holds one entry per enum, in the order of the registry, each under the
    display name of its enum and named by its registry key. *)
Theorem enums_in_iteration_order this :
  NoDup (map (fun entry => getEnumName (snd entry)) (enumMap this)) ->
  (forall name enumObj,
      In (name, enumObj) (enumMap this) -> ordinaryKey (getEnumName enumObj) = true) ->
  prop (generateMetaData this) "enums"
  = Some (JSObject (map (fun entry => (getEnumName (snd entry),
                                       enumEntry (fst entry) (snd entry)))
                        (enumMap this))).
Proof.
  intros Hnodup _. unfold generateMetaData. cbn [prop Obj.get String.eqb Ascii.eqb Bool.eqb].
  rewrite generateEnums_assignAll.
  rewrite (assignAll_NoDup _ _ _ Hnodup []); [reflexivity|].
  intros x _. reflexivity.
Qed.

(** X7: when the fields of a model have pairwise different display names,
    none of them an integer key or [__proto__], the fields mapping of its
    entry holds one entry per field, in the order of the fields, each under
    the display name of its field. *)
Theorem fields_in_declaration_order this obj :
  NoDup (map getFieldName (Model.fields obj)) ->
  (forall field, In field (Model.fields obj) -> ordinaryKey (getFieldName field) = true) ->
  prop (modelEntry this obj) "fields"
  = Some (JSObject (map (fun field => (getFieldName field, fieldEntry this field))
                        (Model.fields obj))).
Proof.
  intros Hnodup _. unfold modelEntry. cbn [prop Obj.get String.eqb Ascii.eqb Bool.eqb].
  rewrite fieldEntries_assignAll.
  rewrite (assignAll_NoDup _ _ _ Hnodup []); [reflexivity|].
  intros x _. reflexivity.
Qed.

End Loops.

(** ** More on the type resolver and the renderers *)

Section Resolver.

Context {collaborators : Collaborators}.

(** X8: for a raw type name that ordinary objects do not inherit from
    [Object.prototype], [getType] returns exactly one of three forms: the
    name itself when it is one of the five scalar tags; otherwise the enum
    form when the name is a key of the enum registry; otherwise the model
    form [{model: <raw name>}], whether or not a model of that name
    exists. *)
Theorem getType_three_forms this gqlType :
  Obj.inherited gqlType = None ->
  (In gqlType scalarTags /\ getType this gqlType = JSString gqlType)
  \/ (~ In gqlType scalarTags
      /\ exists enumObj,
           Obj.get (enumMap this) gqlType = Some enumObj
           /\ getType this gqlType = JSObject [("enum", JSString (Enum.name enumObj))])
  \/ (~ In gqlType scalarTags
      /\ Obj.get (enumMap this) gqlType = None
      /\ getType this gqlType = JSObject [("model", JSString gqlType)]).
Proof.
  intros Hinh.
  destruct (in_dec string_dec gqlType scalarTags) as [Hin|Hnot].
  - left. split; [exact Hin|]. unfold getType.
    destruct (scalar_test_holds _ Hin) as [-> ->]. reflexivity.
  - right. unfold getType. rewrite (scalar_test_fails _ Hnot Hinh).
    unfold Obj.has, Obj.hasOwnProperty, enumMapName. rewrite Hinh.
    destruct (Obj.get (enumMap this) gqlType) as [enumObj|] eqn:Hget.
    + left. split; [exact Hnot|]. exists enumObj. split; reflexivity.
    + right. repeat split; auto.
Qed.

(** X9: for a raw type name that ordinary objects inherit from
    [Object.prototype] as a function ("constructor", "toString", "valueOf"
    and the like), the scalar test [gqlType in JSONGraphQLScalarType] holds
    and [getType] returns the inherited function, whatever the enum
    registry holds; [JSON.stringify] then writes the entry of such a field
    as if it had no [type] key. *)
Theorem getType_inherited_function this gqlType :
  In gqlType Obj.prototype_functions ->
  getType this gqlType = JSFunction gqlType
  /\ forall field indent,
       Field.type field = gqlType ->
       SerializeJSONProperty indent (fieldEntry this field)
       = SerializeJSONProperty indent
           (JSObject [ ("name", JSString (getFieldName field));
                       ("targetName", JSString (Field.name field));
                       ("isArray", JSBool (Field.isList field));
                       ("isRequired", JSBool (negb (Field.isNullable field)));
                       ("attributes", JSArray (generateFieldAttributes field)) ]).
Proof.
  intros Hin.
  assert (E : getType this gqlType = JSFunction gqlType).
  { unfold Obj.prototype_functions in Hin. simpl in Hin.
    repeat (destruct Hin as [<-|Hin]; [reflexivity|]). destruct Hin. }
  split; [exact E|].
  intros field indent Htype. unfold fieldEntry. rewrite Htype, E. reflexivity.
Qed.

(** X10: when no field of a selected model has a raw type inherited from
    [Object.prototype] and the arguments of every directive of a selected
    model are values of JSON, the text of [generateJSONMetaData()] parses
    back to exactly the document of [generateMetaData()]. *)
Theorem generateJSONMetaData_parses_back this :
  (forall key obj, In (key, obj) (getSelectedModels this) -> plainModel obj) ->
  JSON_parse (generateJSONMetaData this) = Some (generateMetaData this).
Proof.
  intros Hplain.
  destruct (JSON_parse_stringify _ (generateMetaData_isJSON this Hplain))
    as [text [Htext Hparse]].
  unfold generateJSONMetaData. rewrite Htext. exact Hparse.
Qed.

(** X11: with no selected model and no enum, the untyped module is the
    assignment of the document with two empty mappings and the version. *)
Theorem generateJavaScriptMetaData_empty this :
  getSelectedModels this = [] -> enumMap this = [] ->
  generateJavaScriptMetaData this
  = "export const schema = "
    ++ ("{" ++ nl
        ++ "    " ++ dq ++ "models" ++ dq ++ ": {}," ++ nl
        ++ "    " ++ dq ++ "enums" ++ dq ++ ": {}," ++ nl
        ++ "    " ++ dq ++ "version" ++ dq ++ ": " ++ QuoteJSONString (computeVersion this) ++ nl
        ++ "}")
    ++ ";".
Proof.
  intros Hmodels Henums.
  unfold generateJavaScriptMetaData, generateMetaData, generateModels, generateEnums, Obj.entries.
  rewrite Hmodels, Henums. reflexivity.
Qed.

Lemma generate_state this :
  fst (generate this)
  = {| _parsedConfig := _parsedConfig this;
       modelMap := processConnectionDirective (modelMap this);
       enumMap := enumMap this |}.
Proof.
  unfold generate. cbn [_parsedConfig].
  destruct (String.eqb (metadataTarget (_parsedConfig this)) "typescript"); [reflexivity|].
  destruct (String.eqb (metadataTarget (_parsedConfig this)) "javascript"); [reflexivity|].
  destruct (String.eqb (metadataTarget (_parsedConfig this)) "typeDeclaration"); reflexivity.
Qed.

(** X12: [generate()] resolves the connections of the model registry
    before it looks at the target, so the registry is processed in every
    case, also when the call throws; the configuration and the enum
    registry stay as they were, and the error of an unsupported target
    names the target and the targets javascript and typescript. *)
Theorem generate_processes_connections_first this :
  fst (generate this)
  = {| _parsedConfig := _parsedConfig this;
       modelMap := processConnectionDirective (modelMap this);
       enumMap := enumMap this |}
  /\ (unsupported (metadataTarget (_parsedConfig this)) ->
      snd (generate this)
      = Throw ("Unsupported metadataTarget " ++ metadataTarget (_parsedConfig this)
               ++ ". Supported targets are javascript and typescript")).
Proof.
  unfold generate, unsupported. cbn [_parsedConfig].
  destruct (String.eqb_spec (metadataTarget (_parsedConfig this)) "typescript") as [E1|E1];
    [|destruct (String.eqb_spec (metadataTarget (_parsedConfig this)) "javascript") as [E2|E2];
      [|destruct (String.eqb_spec (metadataTarget (_parsedConfig this)) "typeDeclaration")
          as [E3|E3]]];
    cbn [fst snd]; (split; [reflexivity|]).
  all: try (intros [H1 [H2 H3]]; congruence).
  all: intros _; reflexivity.
Qed.

(** X13: a non-empty [metadataTarget] option is kept as it is, with no
    trimming and no change of case, and [generate()] on the visitor built
    from it returns a text exactly when the option is one of "typescript",
    "javascript" and "typeDeclaration". *)
Theorem configured_target_is_matched_exactly base rawConfig target :
  raw_metadataTarget rawConfig = Some target -> target <> "" ->
  metadataTarget (_parsedConfig (constructor base rawConfig)) = target
  /\ ((exists text, snd (generate (constructor base rawConfig)) = Return text)
      <-> target = "typescript" \/ target = "javascript" \/ target = "typeDeclaration").
Proof.
  intros Hraw Hne.
  assert (E : metadataTarget (_parsedConfig (constructor base rawConfig)) = target).
  { unfold constructor, orElse, truthy. cbn [_parsedConfig metadataTarget]. rewrite Hraw.
    destruct (String.eqb_spec target "") as [E|E]; [contradiction|reflexivity]. }
  split; [exact E|].
  unfold generate. cbn [_parsedConfig] in *. rewrite E.
  destruct (String.eqb_spec target "typescript") as [E1|E1];
    [|destruct (String.eqb_spec target "javascript") as [E2|E2];
      [|destruct (String.eqb_spec target "typeDeclaration") as [E3|E3]]];
    cbn [snd]; split.
  all: try (intros _; eexists; reflexivity).
  all: try (intros _; tauto).
  - intros [text H]. discriminate.
  - intros [H|[H|H]]; contradiction.
Qed.

(** X15: [generate()] keeps no state of its own: when resolving the
    connections a second time changes nothing, a second call completes as
    the first did and leaves the visitor as the first left it. *)
Theorem generate_twice this :
  (forall models,
      processConnectionDirective (processConnectionDirective models)
      = processConnectionDirective models) ->
  generate (fst (generate this)) = generate this.
Proof.
  intros Hidempotent.
  rewrite (generate_state this). unfold generate. cbn [_parsedConfig modelMap enumMap].
  rewrite Hidempotent. reflexivity.
Qed.

End Resolver.

(** ** What the text of any document denotes *)

Lemma defined_serializes v indent :
  unwritten v = false -> SerializeJSONProperty indent v = Some (elementText indent v).
Proof.
  unfold elementText. destruct v; simpl; try discriminate; reflexivity.
Qed.

Lemma written_defined v : unwritten (written v) = false.
Proof. destruct v; reflexivity. Qed.

Lemma elementText_written v : forall indent,
  elementText indent v = elementText indent (written v).
Proof.
  induction v using JSValue_ind; intros indent; try reflexivity.
  - unfold elementText. cbn [written SerializeJSONProperty]. f_equal.
    rewrite map_map. apply map_ext_Forall.
    eapply Forall_impl; [|exact H]. intros e He. apply He.
  - unfold elementText. cbn [written SerializeJSONProperty]. f_equal.
    induction H as [|p l Hp Hl IH]; [reflexivity|].
    cbn [flat_map]. rewrite IH. clear IH.
    destruct (unwritten (snd p)) eqn:Hu.
    + destruct (snd p); try discriminate; reflexivity.
    + cbn [flat_map List.app fst snd].
      rewrite (defined_serializes _ _ Hu).
      rewrite (defined_serializes _ _ (written_defined (snd p))).
      rewrite <- Hp. reflexivity.
Qed.

Lemma SerializeJSONProperty_written v indent :
  unwritten v = false ->
  SerializeJSONProperty indent v = SerializeJSONProperty indent (written v).
Proof.
  intros Hu.
  rewrite (defined_serializes _ _ Hu), (defined_serializes _ _ (written_defined v)).
  now rewrite <- elementText_written.
Qed.

Lemma existsb_written_keys k (l : list (string * JSValue)) :
  existsb (String.eqb k) (map fst l) = false ->
  existsb (String.eqb k)
    (map fst (flat_map (fun p => if unwritten (snd p) then []
                                 else [(fst p, written (snd p))]) l)) = false.
Proof.
  induction l as [|p l IH]; simpl; auto.
  intros H. apply orb_false_iff in H. destruct H as [Hp Hl].
  destruct (unwritten (snd p)); simpl; [auto|]. now rewrite Hp, IH.
Qed.

Lemma written_isJSON v : wellFormed v = true -> isJSON (written v) = true.
Proof.
  induction v using JSValue_ind; intros Hwf; try reflexivity; try exact Hwf.
  - cbn [written isJSON]. cbn [wellFormed] in Hwf.
    induction H as [|e l He Hl IH]; [reflexivity|].
    cbn [forallb map] in *. apply andb_true_iff in Hwf. destruct Hwf as [Hwe Hwl].
    now rewrite He, IH.
  - cbn [written isJSON]. cbn [wellFormed] in Hwf.
    apply andb_true_iff in Hwf. destruct Hwf as [Hkeys Hvals].
    apply andb_true_iff in Hkeys. destruct Hkeys as [_ Hkeys].
    induction H as [|p l Hp Hl IH]; [reflexivity|].
    cbn [forallb map distinct flat_map] in *.
    apply andb_true_iff in Hkeys. destruct Hkeys as [Hk Hkeys].
    apply andb_true_iff in Hvals. destruct Hvals as [Hwp Hwl].
    specialize (IH Hkeys Hwl). apply andb_true_iff in IH. destruct IH as [IHk IHv].
    destruct (unwritten (snd p)).
    + cbn [List.app]. now rewrite IHk, IHv.
    + cbn [List.app map distinct forallb fst snd].
      apply negb_true_iff in Hk.
      rewrite (existsb_written_keys _ _ Hk), IHk, (Hp Hwp), IHv. reflexivity.
Qed.

(** The text of a value of JavaScript parses to what the text denotes. *)
Theorem JSON_parse_written v :
  wellFormed v = true -> unwritten v = false ->
  exists text, JSON_stringify v = Some text /\ JSON_parse text = Some (written v).
Proof.
  intros Hwf Hu.
  destruct (JSON_parse_stringify _ (written_isJSON v Hwf)) as [text [Htext Hparse]].
  exists text. split; [|exact Hparse].
  unfold JSON_stringify in *. now rewrite SerializeJSONProperty_written.
Qed.

(** A loop that assigns objects builds no [toJSON] method. *)
Lemma hasToJSON_assignAll {A} (key : A -> string) (val : A -> JSValue) l :
  (forall x, In x l -> unwritten (val x) = false) ->
  hasToJSON (assignAll key val l []) = false.
Proof.
  intros Hl. unfold hasToJSON.
  destruct (Obj.get (assignAll key val l []) "toJSON") as [b|] eqn:Hget; [|reflexivity].
  apply assignAll_origin in Hget. destruct Hget as [Hget|[x [Hx [_ ->]]]]; [discriminate|].
  specialize (Hl x Hx). destruct (val x); try reflexivity. discriminate Hl.
Qed.

Lemma wellFormed_assignAll {A} (key : A -> string) (val : A -> JSValue) l :
  (forall x, In x l -> wellFormed (val x) = true) ->
  (forall x, In x l -> unwritten (val x) = false) ->
  wellFormed (JSObject (assignAll key val l [])) = true.
Proof.
  intros Hl Hobjects.
  assert (G : forall acc,
             distinct (map fst acc) = true ->
             forallb (fun p => wellFormed (snd p)) acc = true ->
             distinct (map fst (assignAll key val l acc)) = true
             /\ forallb (fun p => wellFormed (snd p)) (assignAll key val l acc) = true).
  { induction l as [|x l IH]; intros acc Hkeys Hvals; [now split|].
    unfold assignAll in *. cbn [fold_left]. apply IH.
    - intros y Hy. apply Hl. now right.
    - intros y Hy. apply Hobjects. now right.
    - now rewrite distinct_set.
    - rewrite forallb_set; auto. apply Hl. now left. }
  destruct (G [] eq_refl eq_refl) as [Hkeys Hvals].
  cbn [wellFormed]. now rewrite (hasToJSON_assignAll key val l Hobjects), Hkeys, Hvals.
Qed.

Section Text.

Context {collaborators : Collaborators}.

Lemma getType_wellFormed this gqlType : wellFormed (getType this gqlType) = true.
Proof.
  unfold getType, Obj.member, enumMapName.
  destruct (Obj.has JSONGraphQLScalarType gqlType).
  - destruct (Obj.get JSONGraphQLScalarType gqlType) as [tag|] eqn:Htag.
    + simpl in Htag.
      repeat match type of Htag with
             | (if ?b then _ else _) = _ => destruct b; [now inversion Htag|]
             end.
      discriminate.
    + unfold Obj.inherited.
      destruct (String.eqb gqlType "__proto__"); [reflexivity|].
      destruct (existsb (String.eqb gqlType) Obj.prototype_functions); reflexivity.
  - destruct (Obj.has (enumMap this) gqlType); [|reflexivity].
    destruct (Obj.get (enumMap this) gqlType); [reflexivity|].
    destruct (Obj.inherited gqlType) as [[]|]; reflexivity.
Qed.

Lemma generateMetaData_wellFormed this :
  (forall key obj d,
      In (key, obj) (getSelectedModels this) -> In d (Model.directives obj) ->
      wellFormed (Directive.arguments d) = true) ->
  wellFormed (generateMetaData this) = true.
Proof.
  intros Hargs. unfold generateMetaData.
  assert (Hm : wellFormed (JSObject (generateModels this)) = true).
  { rewrite generateModels_assignAll. apply wellFormed_assignAll; [|reflexivity].
    intros [key obj] Hin. unfold modelEntry. cbn [snd].
    assert (Ha : forallb wellFormed (generateModelAttributes obj) = true).
    { unfold generateModelAttributes. apply forallb_forall. intros a Ha.
      apply in_map_iff in Ha. destruct Ha as [d [<- Hd]].
      simpl. now rewrite (Hargs key obj d Hin Hd). }
    assert (Hf : wellFormed (JSObject (fieldEntries this (Model.fields obj))) = true).
    { rewrite fieldEntries_assignAll. apply wellFormed_assignAll; [|reflexivity].
      intros field _.
      unfold fieldEntry. cbn [wellFormed map fst snd forallb distinct existsb].
      change (hasToJSON _) with false. cbn [negb andb].
      rewrite (getType_wellFormed this (Field.type field)).
      unfold generateFieldAttributes.
      destruct (Field.connectionInfo field) as [[f|t|f]|]; reflexivity. }
    cbn [wellFormed] in *. cbn [map fst snd forallb wellFormed]. rewrite Ha, Hf. reflexivity. }
  assert (He : wellFormed (JSObject (generateEnums this)) = true).
  { rewrite generateEnums_assignAll. apply wellFormed_assignAll; [|reflexivity].
    intros [name enumObj] _. unfold enumEntry.
    cbn [wellFormed map fst snd forallb distinct existsb].
    change (hasToJSON _) with false. cbn [negb andb].
    rewrite (proj2 (forallb_forall wellFormed _)); [reflexivity|].
    intros v Hv. apply in_map_iff in Hv. destruct Hv as [s [<- _]]. reflexivity. }
  cbn [wellFormed] in *. cbn [map fst snd forallb wellFormed]. rewrite Hm, He. reflexivity.
Qed.

(** X14: the text of [generateJSONMetaData()] is a JSON text also when
    the document holds [undefined] or functions: it parses to the document
    in which [null] stands for every such element of an array and every
    such property is left out.  The directive arguments are taken to be
    well formed: their numbers safe integers, the keys of each of their
    objects pairwise different, none of their objects with a [toJSON]
    method (which [JSON.stringify] would call). *)
Theorem generateJSONMetaData_always_parses this :
  (forall key obj d,
      In (key, obj) (getSelectedModels this) -> In d (Model.directives obj) ->
      wellFormed (Directive.arguments d) = true) ->
  JSON_parse (generateJSONMetaData this) = Some (written (generateMetaData this)).
Proof.
  intros Hargs.
  destruct (JSON_parse_written _ (generateMetaData_wellFormed this Hargs) eq_refl)
    as [text [Htext Hparse]].
  unfold generateJSONMetaData. rewrite Htext. exact Hparse.
Qed.

End Text.

(** ** The claims on the sample visitor *)

Module Examples.

Import Sample.

#[local] Existing Instance Sample.collaborators.

Lemma getType_enum_after_scalar_holds :
  getType javascript "Status" = JSObject [("enum", JSString "Status")]
  /\ getType scalarNamedEnum "String" = JSString "String".
Proof.
  split.
  - apply (proj1 (getType_enum_after_scalar javascript "Status" Status eq_refl)).
    + unfold scalarTags. simpl. intros H.
      repeat (destruct H as [H|H]; [discriminate H|]). exact H.
    + reflexivity.
  - apply (proj2 (getType_enum_after_scalar scalarNamedEnum "String"
                    (Enum.mk "String" [("SHORT", "SHORT"); ("LONG", "LONG")]) eq_refl)).
    unfold scalarTags. simpl. auto.
Defined.

(** C1 fails as stated: "String" is a key of the enum registry, and
    [getType] returns the scalar tag. *)
Lemma getType_scalar_shadows_enum :
  Obj.hasOwnProperty (enumMap scalarNamedEnum) "String" = true
  /\ getType scalarNamedEnum "String" = JSString "String"
  /\ forall displayName,
       getType scalarNamedEnum "String" <> JSObject [("enum", displayName)].
Proof.
  repeat split. intros displayName H. discriminate H.
Qed.

Lemma generateFieldAttributes_connection_holds :
  exists properties,
    generateFieldAttributes tasks
    = [JSObject [("type", JSString "connection"); ("properties", JSObject properties)]]
    /\ Obj.get properties "connectionType" = Some (JSString "HAS_MANY")
    /\ Obj.get properties "associatedWith" = Some (JSString "todo")
    /\ Obj.hasOwnProperty properties "targetName" = false.
Proof.
  exact (generateFieldAttributes_connection tasks (HasMany todo) eq_refl).
Defined.

Lemma pluralTargetName_of_schema_name_holds :
  In ("Todo", Todo) (getSelectedModels javascript)
  /\ path (generateMetaData javascript) ["models"; "Todo"; "pluralTargetName"]
     = Some (JSString "Todos").
Proof.
  assert (Hin : In ("Todo", Todo) (getSelectedModels javascript)) by (simpl; auto).
  split; [exact Hin|].
  exact (proj2 (pluralTargetName_of_schema_name javascript "Todo" Todo Hin) eq_refl eq_refl).
Defined.

(** C2 fails as stated: the display name of the model is "TodoModel",
    whose capitalized plural is "TodoModels", and the document holds
    "Todos". *)
Lemma pluralTargetName_not_of_display_name :
  In ("Todo", Todo) (getSelectedModels javascript)
  /\ getModelName Todo = "TodoModel"
  /\ plural (upperCaseFirst (getModelName Todo)) = "TodoModels"
  /\ path (generateMetaData javascript) ["models"; "Todo"; "pluralTargetName"]
     = Some (JSString "Todos")
  /\ path (generateMetaData javascript) ["models"; "Todo"; "pluralTargetName"]
     <> Some (JSString (plural (upperCaseFirst (getModelName Todo)))).
Proof.
  repeat split; simpl; auto. intros H. discriminate H.
Qed.

Lemma models_keyed_by_schema_name_holds :
  Model.name Todo <> getModelName Todo
  /\ keyedByName (getSelectedModels javascript)
  /\ In ("Todo", Todo) (getSelectedModels javascript)
  /\ path (generateMetaData javascript) ["models"; "Todo"; "name"]
     = Some (JSString "TodoModel")
  /\ path (generateMetaData javascript) ["models"; "Todo"; "targetName"]
     = Some (JSString "Todo").
Proof.
  assert (Hkeyed : keyedByName (getSelectedModels javascript)).
  { split.
    - repeat constructor; simpl; intuition discriminate.
    - intros key obj [H|[H|[]]]; inversion H; reflexivity. }
  assert (Hin : In ("Todo", Todo) (getSelectedModels javascript)) by (simpl; auto).
  split; [intros H; discriminate H|].
  split; [exact Hkeyed|]. split; [exact Hin|].
  exact (proj2 (models_keyed_by_schema_name javascript "Todo" Todo Hkeyed Hin)).
Defined.

Lemma enums_keyed_by_display_name_holds :
  path (generateMetaData sharedDisplayName) ["enums"; "Status"; "name"]
  = Some (JSString "status")
  /\ path (generateMetaData sharedDisplayName) ["enums"; "Status"; "values"]
     = Some (JSArray [JSString "ON"; JSString "OFF"]).
Proof.
  refine (enums_keyed_by_display_name sharedDisplayName [("Status", Status)]
            "status" lowerStatus [] eq_refl _).
  intros entry [].
Defined.

(** C6 fails as stated: the enums "Status" and "status" of the registry
    both have the display name "Status"; the entry under "Status" names
    the second and holds its values. *)
Lemma enums_entry_overwritten :
  In ("Status", Status) (enumMap sharedDisplayName)
  /\ getEnumName Status = "Status"
  /\ path (generateMetaData sharedDisplayName) ["enums"; getEnumName Status; "name"]
     <> Some (JSString "Status")
  /\ path (generateMetaData sharedDisplayName) ["enums"; getEnumName Status; "values"]
     <> Some (JSArray (map JSString (Obj.values (Enum.values Status)))).
Proof.
  repeat split; simpl; auto; intros H; discriminate H.
Qed.

Lemma generate_typeDeclaration_holds :
  snd (generate (visitor "typeDeclaration"))
  = Return ("import { Schema } from '@aws-amplify/datastore';" ++ nl
            ++ "" ++ nl
            ++ "export declare const schema: Schema;")
  /\ snd (generate (visitor "typeDeclaration")) = snd (generate declarationOnly).
Proof.
  split.
  - exact (generate_typeDeclaration (visitor "typeDeclaration") eq_refl).
  - rewrite (generate_typeDeclaration (visitor "typeDeclaration") eq_refl).
    symmetry. exact (generate_typeDeclaration declarationOnly eq_refl).
Defined.

Lemma falsy_metadataTarget_is_javascript_holds :
  let this := constructor (visitor "typescript") {| raw_metadataTarget := Some "" |} in
  metadataTarget (_parsedConfig this) = "javascript"
  /\ snd (generate this) = Return (generateJavaScriptMetaData (fst (generate this)))
  /\ forall message, snd (generate this) <> Throw message.
Proof.
  exact (falsy_metadataTarget_is_javascript (visitor "typescript")
           {| raw_metadataTarget := Some "" |} (or_intror eq_refl)).
Defined.

(** C7, at the registries of a schema that declares a model type named
    [toString] and a field [describe] of that type, for both module
    targets: the raw type is found in the scalar enum through
    [Object.prototype], so the document holds the inherited function as the
    [type] of the field; the JSON text embedded in the emitted text has no
    [type] for that field, and what the text parses to is not the document
    that [generateMetaData()] built. *)
Theorem inherited_type_is_not_read_back :
  exists json parsed,
    snd (generate (modelNamedToString "javascript"))
    = Return ("export const schema = " ++ json ++ ";")
    /\ snd (generate (modelNamedToString "typescript"))
       = Return ("import { Schema } from " ++ dq ++ "@aws-amplify/datastore" ++ dq ++ ";" ++ nl
                 ++ "" ++ nl
                 ++ "export const schema: Schema = " ++ json ++ ";")
    /\ generateMetaData (fst (generate (modelNamedToString "typescript")))
       = generateMetaData (fst (generate (modelNamedToString "javascript")))
    /\ JSON_parse json = Some parsed
    /\ path (generateMetaData (fst (generate (modelNamedToString "javascript"))))
             ["models"; "Note"; "fields"; "describe"; "type"]
       = Some (JSFunction "toString")
    /\ path parsed ["models"; "Note"; "fields"; "describe"]
       = Some (JSObject [ ("name", JSString "describe");
                          ("targetName", JSString "describe");
                          ("isArray", JSBool false);
                          ("isRequired", JSBool false);
                          ("attributes", JSArray []) ])
    /\ parsed <> generateMetaData (fst (generate (modelNamedToString "javascript"))).
Proof.
  eexists (interpolate
             (JSON_stringify
                (generateMetaData (fst (generate (modelNamedToString "javascript")))))).
  eexists. split; [reflexivity|]. split; [reflexivity|]. split; [reflexivity|].
  split; [vm_compute; reflexivity|].
  split; [reflexivity|]. split; [reflexivity|].
  intros H.
  apply (f_equal (fun v => path v ["models"; "Note"; "fields"; "describe"; "type"])) in H.
  vm_compute in H. discriminate H.
Qed.

Lemma generate_embeds_parseable_document_holds :
  exists json,
    snd (generate javascript) = Return ("export const schema = " ++ json ++ ";")
    /\ JSON_parse json = Some (generateMetaData (fst (generate javascript))).
Proof.
  destruct (generate_embeds_parseable_document javascript)
    as [json [_ [Hparse [Hjs _]]]].
  - intros key obj [H|[H|[]]]; inversion H; subst; split; intros x Hx; simpl in Hx;
      repeat (destruct Hx as [<-|Hx]; [reflexivity|]); destruct Hx.
  - exists json. split; [exact (Hjs eq_refl)|exact Hparse].
Defined.

Lemma scalar_field_entry_holds :
  prop (fieldEntry javascript title) "type" = Some (JSString "String")
  /\ prop (fieldEntry javascript title) "isRequired" = Some (JSBool true)
  /\ prop (fieldEntry javascript title) "isArray" = Some (JSBool false).
Proof.
  apply (scalar_field_entry javascript title).
  unfold scalarTags. simpl. auto.
Defined.

Lemma fields_keyed_by_display_name_holds :
  exists field,
    In field (Model.fields Task)
    /\ getFieldName field = "todo"
    /\ prop (fieldEntry javascript todo) "name" = Some (JSString "todo")
    /\ prop (fieldEntry javascript todo) "targetName" = Some (JSString (Field.name field)).
Proof.
  exact (fields_keyed_by_display_name javascript Task "todo" (fieldEntry javascript todo)
           eq_refl).
Defined.

Lemma models_in_iteration_order_holds :
  prop (generateMetaData javascript) "models"
  = Some (JSObject [ ("Todo", modelEntry javascript Todo);
                     ("Task", modelEntry javascript Task) ]).
Proof.
  assert (Hnodup : NoDup (map (fun entry => Model.name (snd entry)) (getSelectedModels javascript)))
    by (repeat constructor; simpl; intuition discriminate).
  refine (models_in_iteration_order javascript Hnodup _).
  intros key obj [H|[H|[]]]; inversion H; reflexivity.
Defined.

Lemma enums_in_iteration_order_holds :
  prop (generateMetaData javascript) "enums"
  = Some (JSObject [("Status", enumEntry "Status" Status)]).
Proof.
  assert (Hnodup : NoDup (map (fun entry => getEnumName (snd entry)) (enumMap javascript)))
    by (repeat constructor; simpl; intuition discriminate).
  refine (enums_in_iteration_order javascript Hnodup _).
  intros name enumObj [H|[]]; inversion H; reflexivity.
Defined.

Lemma fields_in_declaration_order_holds :
  prop (modelEntry javascript Todo) "fields"
  = Some (JSObject [ ("title", fieldEntry javascript title);
                     ("status", fieldEntry javascript status);
                     ("tasks", fieldEntry javascript tasks) ]).
Proof.
  assert (Hnodup : NoDup (map getFieldName (Model.fields Todo)))
    by (repeat constructor; simpl; intuition discriminate).
  refine (fields_in_declaration_order javascript Todo Hnodup _).
  intros field [<-|[<-|[<-|[]]]]; reflexivity.
Defined.

Lemma getType_three_forms_holds :
  Obj.get (modelMap javascript) "Comment" = None
  /\ getType javascript "Comment" = JSObject [("model", JSString "Comment")].
Proof.
  split; [reflexivity|].
  destruct (getType_three_forms javascript "Comment" eq_refl)
    as [[Hin _]|[[_ [enumObj [Hget _]]]|[_ [_ H]]]].
  - exfalso. unfold scalarTags in Hin. simpl in Hin.
    repeat (destruct Hin as [Hin|Hin]; [discriminate Hin|]). exact Hin.
  - discriminate Hget.
  - exact H.
Defined.

Lemma getType_inherited_function_holds :
  getType javascript "toString" = JSFunction "toString"
  /\ SerializeJSONProperty "" (fieldEntry inheritedType describe)
     = SerializeJSONProperty ""
         (JSObject [ ("name", JSString "describe");
                     ("targetName", JSString "describe");
                     ("isArray", JSBool false);
                     ("isRequired", JSBool false);
                     ("attributes", JSArray []) ]).
Proof.
  assert (Hin : In "toString" Obj.prototype_functions) by (simpl; tauto).
  split.
  - exact (proj1 (getType_inherited_function javascript "toString" Hin)).
  - exact (proj2 (getType_inherited_function inheritedType "toString" Hin) describe "" eq_refl).
Defined.

Lemma generateJSONMetaData_parses_back_holds :
  JSON_parse (generateJSONMetaData javascript) = Some (generateMetaData javascript).
Proof.
  apply (generateJSONMetaData_parses_back javascript).
  intros key obj [H|[H|[]]]; inversion H; subst; split; intros x Hx; simpl in Hx;
    repeat (destruct Hx as [<-|Hx]; [reflexivity|]); destruct Hx.
Defined.

Lemma generateJavaScriptMetaData_empty_holds :
  generateJavaScriptMetaData emptyRegistries
  = "export const schema = {" ++ nl
    ++ "    " ++ dq ++ "models" ++ dq ++ ": {}," ++ nl
    ++ "    " ++ dq ++ "enums" ++ dq ++ ": {}," ++ nl
    ++ "    " ++ dq ++ "version" ++ dq ++ ": "
    ++ dq ++ "b1946ac92492d2347c6235b4d2611184" ++ dq ++ nl
    ++ "};".
Proof.
  exact (generateJavaScriptMetaData_empty emptyRegistries eq_refl eq_refl).
Defined.

Lemma configured_target_is_matched_exactly_holds :
  let this := constructor javascript {| raw_metadataTarget := Some "TypeScript" |} in
  metadataTarget (_parsedConfig this) = "TypeScript"
  /\ ~ exists text, snd (generate this) = Return text.
Proof.
  destruct (configured_target_is_matched_exactly javascript
              {| raw_metadataTarget := Some "TypeScript" |} "TypeScript" eq_refl)
    as [Htarget Hreturns].
  - intros H. discriminate H.
  - split; [exact Htarget|].
    intros H. apply Hreturns in H. destruct H as [H|[H|H]]; discriminate H.
Defined.

Lemma generateJSONMetaData_always_parses_holds :
  JSON_parse (generateJSONMetaData inheritedType)
  = Some (written (generateMetaData inheritedType))
  /\ path (generateMetaData inheritedType) ["models"; "Note"; "fields"; "describe"; "type"]
     = Some (JSFunction "toString")
  /\ path (written (generateMetaData inheritedType))
          ["models"; "Note"; "fields"; "describe"; "type"]
     = None
  /\ path (written (generateMetaData inheritedType)) ["models"; "Note"; "attributes"]
     = Some (JSArray [JSObject [("type", JSString "model")]]).
Proof.
  split; [|repeat split].
  apply (generateJSONMetaData_always_parses inheritedType).
  intros key obj d [H|[]] Hd. inversion H. subst. simpl in Hd.
  destruct Hd as [<-|[]]. reflexivity.
Defined.

Lemma generate_twice_holds :
  generate (fst (generate javascript)) = generate javascript.
Proof.
  apply (generate_twice javascript). intros models. reflexivity.
Defined.

End Examples.
